(** * A shallow embedding of the type-modeling repository

    Two Python modules are embedded:

    - [type_checker/types.py]: the nominal type model ([JavaType],
      [JavaClassOrInterface], [JavaMethod], [JavaConstructor]) with the
      subtype traversal [is_subtype_of] and the method resolution
      [method_named];
    - [java_type_checker/expressions.py]: the expression AST with
      [static_type] and [check_types].

    Python objects have identity and their list attributes are shared
    references, so the type model lives in an explicit object heap. *)

From Stdlib Require Import DecimalString.
From stdpp Require Import strings list gmap fin_maps relations.

Open Scope string_scope.
Open Scope list_scope.
Open Scope nat_scope.

(** ** Part I: definitions *)

Module Types.

(** *** Results of running Python code *)

(** Addresses of heap objects: Python's [id]. *)
Abbreviation loc := nat.

Inductive exn :=
| AttributeError (msg : string)
| TypeError (msg : string)
| NoSuchMethod (msg : string)
| Dangling (l : loc).
(* [Dangling] is not a Python exception: it is what the model answers at an
   address outside the heap, which no Python program can hold. *)

(** A call returns a value, raises, or exhausts the recursion budget. *)
Inductive res (A : Type) :=
| Ret (a : A)
| Raise (e : exn)
| OutOfFuel.
Arguments Ret {A} a.
Arguments Raise {A} e.
Arguments OutOfFuel {A}.

#[global] Instance res_bind : MBind res := fun A B k r =>
  match r with
  | Ret a => k a
  | Raise e => Raise e
  | OutOfFuel => OutOfFuel
  end.

(** *** The object heap *)

Inductive obj :=
| PyList (items : list loc)
| JavaConstructor (argument_types : loc)
| JavaType (name : string) (direct_supertypes : loc)
| JavaClassOrInterface (name : string) (direct_supertypes : loc)
    (constructor : loc) (methods : gmap string loc)
| JavaMethod (name : string) (argument_types : loc) (return_type : option loc).

Abbreviation heap := (list obj).

Definition class_name (o : obj) : string :=
  match o with
  | PyList _ => "list"
  | JavaConstructor _ => "JavaConstructor"
  | JavaType _ _ => "JavaType"
  | JavaClassOrInterface _ _ _ _ => "JavaClassOrInterface"
  | JavaMethod _ _ _ => "JavaMethod"
  end.

Definition no_attribute (o : obj) (attr : string) : exn :=
  AttributeError ("'" +:+ class_name o +:+ "' object has no attribute '" +:+ attr +:+ "'").

Definition not_iterable (o : obj) : exn :=
  TypeError ("'" +:+ class_name o +:+ "' object is not iterable").

(** [alloc] places a new object at the next free address. *)
Definition alloc (o : obj) (h : heap) : loc * heap := (length h, h ++ [o]).

(** [for x in l]: the items of the list object at [l]. *)
Definition iter (h : heap) (l : loc) : res (list loc) :=
  match h !! l with
  | Some (PyList items) => Ret items
  | Some o => Raise (not_iterable o)
  | None => Raise (Dangling l)
  end.

(** [o.name] *)
Definition get_name (h : heap) (l : loc) : res string :=
  match h !! l with
  | Some (JavaType n _) | Some (JavaClassOrInterface n _ _ _) | Some (JavaMethod n _ _) => Ret n
  | Some o => Raise (no_attribute o "name")
  | None => Raise (Dangling l)
  end.

(** [o.direct_supertypes], after [o]'s class was found to have the method
    [meth] that reads it: both type classes have the attribute. *)
Definition get_direct_supertypes (h : heap) (l : loc) (meth : string) : res loc :=
  match h !! l with
  | Some (JavaType _ ds) | Some (JavaClassOrInterface _ ds _ _) => Ret ds
  | Some o => Raise (no_attribute o meth)
  | None => Raise (Dangling l)
  end.

(** *** Default arguments

    A default argument is evaluated once, when the [def] statement runs, and
    the resulting object is what every later call without that argument
    receives. *)

Record defaults := {
  JavaConstructor_argument_types : loc;
  JavaType_direct_supertypes : loc;
  JavaClassOrInterface_direct_supertypes : loc;
  JavaClassOrInterface_constructor : loc;
  JavaClassOrInterface_methods : loc;
  JavaMethod_argument_types : loc
}.

Definition JavaConstructor_init (d : defaults) (argument_types : option loc)
    (h : heap) : loc * heap :=
  alloc (JavaConstructor (default (JavaConstructor_argument_types d) argument_types)) h.

Definition JavaType_init (d : defaults) (name : string) (direct_supertypes : option loc)
    (h : heap) : loc * heap :=
  alloc (JavaType name (default (JavaType_direct_supertypes d) direct_supertypes)) h.

Definition JavaMethod_init (d : defaults) (name : string) (argument_types : option loc)
    (return_type : option loc) (h : heap) : loc * heap :=
  alloc (JavaMethod name (default (JavaMethod_argument_types d) argument_types) return_type) h.

(** [{ method.name: method for method in methods }]: a later method of the
    same name replaces an earlier one. *)
Fixpoint methods_dict (h : heap) (ms : list loc) (acc : gmap string loc)
    : res (gmap string loc) :=
  match ms with
  | [] => Ret acc
  | m :: ms' => n ← get_name h m; methods_dict h ms' (<[n := m]> acc)
  end.

Definition JavaClassOrInterface_init (d : defaults) (name : string)
    (direct_supertypes constructor methods : option loc) (h : heap) : res (loc * heap) :=
  let ds := default (JavaClassOrInterface_direct_supertypes d) direct_supertypes in
  let c := default (JavaClassOrInterface_constructor d) constructor in
  ms ← iter h (default (JavaClassOrInterface_methods d) methods);
  dict ← methods_dict h ms ∅;
  Ret (alloc (JavaClassOrInterface name ds c dict) h).

(** Executing the module: the four [def __init__] statements evaluate their
    defaults in source order. *)
Definition load_module (h0 : heap) : defaults * heap :=
  let '(l_ctor, h1) := alloc (PyList []) h0 in
  let '(l_type, h2) := alloc (PyList []) h1 in
  let '(l_cls_ds, h3) := alloc (PyList []) h2 in
  let '(l_arg, h4) := alloc (PyList []) h3 in
  let '(l_cls_ctor, h5) := alloc (JavaConstructor l_arg) h4 in
  let '(l_cls_ms, h6) := alloc (PyList []) h5 in
  let '(l_meth, h7) := alloc (PyList []) h6 in
  ({| JavaConstructor_argument_types := l_ctor;
      JavaType_direct_supertypes := l_type;
      JavaClassOrInterface_direct_supertypes := l_cls_ds;
      JavaClassOrInterface_constructor := l_cls_ctor;
      JavaClassOrInterface_methods := l_cls_ms;
      JavaMethod_argument_types := l_meth |}, h7).

(** [l.append(x)] on the list object at [l]. *)
Definition append (l x : loc) (h : heap) : res heap :=
  match h !! l with
  | Some (PyList items) => Ret (<[l := PyList (items ++ [x])]> h)
  | Some o => Raise (no_attribute o "append")
  | None => Raise (Dangling l)
  end.

(** *** The subtype relation *)

(** [any(f(t) for t in l)]: stops at the first true element; an exception
    in an element ends the iteration. *)
Fixpoint any {A} (f : A -> res bool) (l : list A) : res bool :=
  match l with
  | [] => Ret false
  | x :: l' =>
    match f x with
    | Ret true => Ret true
    | Ret false => any f l'
    | Raise e => Raise e
    | OutOfFuel => OutOfFuel
    end
  end.

(** [fuel] bounds the depth of the recursion. [other == self] is the default
    [object.__eq__], identity. *)
Fixpoint is_subtype_of (h : heap) (fuel : nat) (self other : loc) : res bool :=
  match fuel with
  | 0 => OutOfFuel
  | S fuel' =>
    ds ← get_direct_supertypes h self "is_subtype_of";
    if bool_decide (other = self) then Ret true
    else ts ← iter h ds; any (fun t => is_subtype_of h fuel' t other) ts
  end.

Definition is_supertype_of (h : heap) (fuel : nat) (self other : loc) : res bool :=
  _ ← get_direct_supertypes h self "is_supertype_of";
  is_subtype_of h fuel other self.

(** *** Method resolution *)

(** The [for] loop of [method_named]: the first supertype that resolves the
    name wins, [NoSuchMethod] from a supertype moves on to the next one, and
    the loop falls through to the final [raise]. *)
Fixpoint first_resolved (f : loc -> res loc) (fail : exn) (ts : list loc) : res loc :=
  match ts with
  | [] => Raise fail
  | t :: ts' =>
    match f t with
    | Raise (NoSuchMethod _) => first_resolved f fail ts'
    | r => r
    end
  end.

Fixpoint method_named (h : heap) (fuel : nat) (self : loc) (name : string) : res loc :=
  match fuel with
  | 0 => OutOfFuel
  | S fuel' =>
    match h !! self with
    | Some (JavaClassOrInterface self_name ds _ methods) =>
      match methods !! name with
      | Some m => Ret m
      | None =>
        ts ← iter h ds;
        first_resolved (fun t => method_named h fuel' t name)
          (NoSuchMethod (self_name +:+ " has no method named " +:+ name)) ts
      end
    | Some o => Raise (no_attribute o "method_named")
    | None => Raise (Dangling self)
    end
  end.

End Types.

Module TypeGraph.
Import Types.

(** *** The supertype graph of a heap *)

Definition is_type (h : heap) (t : loc) : bool :=
  match h !! t with
  | Some (JavaType _ _) | Some (JavaClassOrInterface _ _ _ _) => true
  | _ => false
  end.

Definition is_class (h : heap) (t : loc) : bool :=
  match h !! t with
  | Some (JavaClassOrInterface _ _ _ _) => true
  | _ => false
  end.

(** The items of [t.direct_supertypes], for a type object [t] whose
    attribute is a list. *)
Definition supertypes (h : heap) (t : loc) : option (list loc) :=
  match h !! t with
  | Some (JavaType _ ds) | Some (JavaClassOrInterface _ ds _ _) =>
    match h !! ds with
    | Some (PyList ts) => Some ts
    | _ => None
    end
  | _ => None
  end.

(** [edge h t s]: [s] is a direct supertype of [t]. *)
Definition edge (h : heap) (t s : loc) : Prop :=
  ∃ ts, supertypes h t = Some ts ∧ s ∈ ts.

(** No type is its own proper ancestor. *)
Definition acyclic (h : heap) : Prop := ∀ t, ¬ tc (edge h) t t.

(** [reachable h a b]: [b] is [a] or an ancestor of [a]. *)
Definition reachable (h : heap) : loc → loc → Prop := rtc (edge h).

(** Every type holds a list of types as its direct supertypes. *)
Definition well_formed (h : heap) : Prop :=
  ∀ t, is_type h t = true →
    ∃ ts, supertypes h t = Some ts ∧ ∀ s, s ∈ ts → is_type h s = true.

(** Every class or interface holds a list of classes or interfaces. *)
Definition class_hierarchy (h : heap) : Prop :=
  ∀ t, is_class h t = true →
    ∃ ts, supertypes h t = Some ts ∧ ∀ s, s ∈ ts → is_class h s = true.

(** [t] and every ancestor of [t] is a class or interface that holds a list
    as its direct supertypes. *)
Definition class_ancestry (h : heap) (t : loc) : Prop :=
  ∀ s, reachable h t s → is_class h s = true ∧ ∃ ts, supertypes h s = Some ts.

(** A checkable sufficient condition for acyclicity: every direct supertype
    was allocated before its subtype. *)
Definition older_supertypes (h : heap) : bool :=
  forallb (λ t, match supertypes h t with
                | Some ts => forallb (λ s, s <? t) ts
                | None => true
                end) (seq 0 (length h)).

Definition all_types_ok (h : heap) : bool :=
  forallb (λ t, negb (is_type h t) ||
                match supertypes h t with
                | Some ts => forallb (is_type h) ts
                | None => false
                end) (seq 0 (length h)).

Definition all_classes_ok (h : heap) : bool :=
  forallb (λ t, negb (is_class h t) ||
                match supertypes h t with
                | Some ts => forallb (is_class h) ts
                | None => false
                end) (seq 0 (length h)).

(** The method a class declares itself under [name]. *)
Definition own_method (h : heap) (t : loc) (name : string) : option loc :=
  match h !! t with
  | Some (JavaClassOrInterface _ _ _ methods) => methods !! name
  | _ => None
  end.

(** Neither [t] nor any ancestor of [t] declares [name]. *)
Definition no_ancestor_declares (h : heap) (t : loc) (name : string) : Prop :=
  ∀ s, reachable h t s → own_method h s name = None.

(** Method resolution as the specification words it: the type's own method
    first; otherwise the direct supertypes in declared order, depth-first,
    the first one with a declaring ancestor giving the result. *)
Inductive resolves (h : heap) (name : string) : loc → loc → Prop :=
| resolves_own t m :
    own_method h t name = Some m → resolves h name t m
| resolves_inherited t pre s post m :
    own_method h t name = None →
    supertypes h t = Some (pre ++ s :: post) →
    (∀ p, p ∈ pre → no_ancestor_declares h p name) →
    resolves h name s m →
    resolves h name t m.

Definition type_name (h : heap) (t : loc) : string :=
  match h !! t with
  | Some (JavaType n _) | Some (JavaClassOrInterface n _ _ _) => n
  | _ => ""
  end.

(** The exception of the final [raise] of [t.method_named(name)]. *)
Definition no_such_method (h : heap) (name : string) (t : loc) : exn :=
  NoSuchMethod (type_name h t +:+ " has no method named " +:+ name).

(** The recursion budget of a call on [self] reached through the distinct
    ancestors-to-be [path]: on an acyclic heap no chain of direct supertypes
    is longer than the heap. *)
Definition budget (h : heap) (path : list loc) (self : loc) (fuel : nat) : Prop :=
  NoDup path ∧
  (∀ p, p ∈ path → p < length h ∧ tc (edge h) p self) ∧
  length h < fuel + length path.

End TypeGraph.

Module Expressions.

(** *** Exceptions of [expressions.py] *)

Inductive exn :=
| NotImplementedError (msg : string)
| JavaTypeError (msg : string)
| NoSuchJavaMethod (msg : string)
| JavaTypeMismatchError (msg : string)
| JavaArgumentCountError (msg : string)
| JavaIllegalInstantiationError (msg : string).

Inductive res (A : Type) :=
| Ok (a : A)
| Raise (e : exn).
Arguments Ok {A} a.
Arguments Raise {A} e.

#[global] Instance res_bind : MBind res := fun A B k r =>
  match r with
  | Ok a => k a
  | Raise e => Raise e
  end.

(** [[f(x) for x in l]], left to right, ended by the first exception. *)
Fixpoint comprehension {A B} (f : A → res B) (l : list A) : res (list B) :=
  match l with
  | [] => Ok []
  | x :: l' => y ← f x; ys ← comprehension f l'; Ok (y :: ys)
  end.

(** [needle] occurs in [s]. *)
Definition occurs_in (needle s : string) : Prop := ∃ a b, s = a +:+ needle +:+ b.

(** [str(n)] for a length. *)
Definition str (n : nat) : string := NilEmpty.string_of_uint (Nat.to_uint n).

(** *** The types module used by the expressions

    [expressions.py] imports its types from the sibling module
    [java_type_checker/types.py], which is not among the sources. What the
    expressions use of a type is taken as a parameter: its [name], the
    [is_object_type] marker, [is_subtype_of], [method_named] (which raises
    [NoSuchJavaMethod]), the [parameter_types] and [return_type] of a
    method, and the built-in [NULL] type. *)

Record JavaMethod (JavaType : Type) := {
  parameter_types : list JavaType;
  return_type : JavaType
}.
Arguments parameter_types {JavaType} _.
Arguments return_type {JavaType} _.

Class JavaTypes (JavaType : Type) := {
  name : JavaType → string;
  is_object_type : JavaType → bool;
  is_subtype_of : JavaType → JavaType → bool;
  method_named : JavaType → string → res (JavaMethod JavaType);
  NULL : JavaType
}.

Section Checker.
Context {JavaType : Type} `{JavaTypes JavaType}.

(** *** The expression AST *)

Inductive JavaExpression :=
| JavaVariable (name : string) (declared_type : JavaType)
| JavaLiteral (value : string) (type : JavaType)
| JavaNullLiteral
| JavaAssignment (lhs rhs : JavaExpression)
| JavaMethodCall (receiver : JavaExpression) (method_name : string)
    (args : list JavaExpression)
| JavaConstructorCall (instantiated_type : JavaType) (args : list JavaExpression).

(** [type(self).__name__] *)
Definition class_name (e : JavaExpression) : string :=
  match e with
  | JavaVariable _ _ => "JavaVariable"
  | JavaLiteral _ _ => "JavaLiteral"
  | JavaNullLiteral => "JavaNullLiteral"
  | JavaAssignment _ _ => "JavaAssignment"
  | JavaMethodCall _ _ _ => "JavaMethodCall"
  | JavaConstructorCall _ _ => "JavaConstructorCall"
  end.

(** [JavaConstructorCall] defines neither method and inherits the two of
    [JavaExpression]. *)
Fixpoint static_type (e : JavaExpression) : res JavaType :=
  match e with
  | JavaVariable _ declared_type => Ok declared_type
  | JavaLiteral _ type => Ok type
  | JavaNullLiteral => Ok NULL
  | JavaAssignment lhs _ => static_type lhs
  | JavaMethodCall receiver method_name _ =>
    receiver_type ← static_type receiver;
    if negb (is_object_type receiver_type) then
      Raise (JavaTypeError ("Cannot call method " +:+ method_name +:+
                            " on primitive type " +:+ name receiver_type))
    else
      method ← match method_named receiver_type method_name with
               | Raise (NoSuchJavaMethod e) => Raise (JavaTypeError e)
               | r => r
               end;
      Ok (return_type method)
  | JavaConstructorCall _ _ =>
    Raise (NotImplementedError (class_name e +:+ " must override static_type()"))
  end.

Definition assignment_message (lhs : JavaExpression) (lhs_type_name rhs_type_name : string)
    : string :=
  match lhs with
  | JavaVariable variable_name _ =>
    "Cannot assign " +:+ rhs_type_name +:+ " to variable " +:+ variable_name +:+
    " of type " +:+ lhs_type_name
  | _ => "Cannot assign " +:+ rhs_type_name +:+ " to " +:+ lhs_type_name
  end.

Definition argument_count_message (receiver_type : JavaType) (method_name : string)
    (expected_arg_count actual_arg_count : nat) : string :=
  "Wrong number of arguments for " +:+ name receiver_type +:+ "." +:+ method_name +:+
  "(): " +:+ "expected " +:+ str expected_arg_count +:+ ", got " +:+ str actual_arg_count.

Definition argument_type_message (receiver_type : JavaType) (method_name : string)
    (expected_types actual_types : list string) : string :=
  name receiver_type +:+ "." +:+ method_name +:+ "() expects arguments of type " +:+
  "(" +:+ String.concat ", " expected_types +:+ "), but got " +:+
  "(" +:+ String.concat ", " actual_types +:+ ")".

(** The [for arg_expr, param_type in zip(self.args, method.parameter_types)]
    loop of [JavaMethodCall.check_types]; [check] is [check_types] itself and
    [mismatch] builds the exception from all of [self.args]. *)
Fixpoint check_args (check : JavaExpression → res unit) (mismatch : res unit)
    (args : list JavaExpression) (parameter_types : list JavaType) : res unit :=
  match args, parameter_types with
  | arg_expr :: args', param_type :: parameter_types' =>
    _ ← check arg_expr;
    arg_type ← static_type arg_expr;
    if negb (is_subtype_of arg_type param_type) then mismatch
    else check_args check mismatch args' parameter_types'
  | _, _ => Ok tt
  end.

Fixpoint check_types (e : JavaExpression) : res unit :=
  match e with
  | JavaVariable _ _ => Ok tt
  | JavaLiteral _ _ => Ok tt
  | JavaNullLiteral => Ok tt
  | JavaAssignment lhs rhs =>
    _ ← check_types lhs;
    _ ← check_types rhs;
    lhs_type ← static_type lhs;
    rhs_type ← static_type rhs;
    if negb (is_subtype_of rhs_type lhs_type) then
      Raise (JavaTypeMismatchError (assignment_message lhs (name lhs_type) (name rhs_type)))
    else Ok tt
  | JavaMethodCall receiver method_name args =>
    _ ← check_types receiver;
    receiver_type ← static_type receiver;
    if negb (is_object_type receiver_type) then
      Raise (NoSuchJavaMethod ("Type " +:+ name receiver_type +:+ " does not have methods"))
    else
      method ← match method_named receiver_type method_name with
               | Raise (NoSuchJavaMethod e) => Raise (NoSuchJavaMethod e)
               | r => r
               end;
      let expected_arg_count := length (parameter_types method) in
      let actual_arg_count := length args in
      if negb (expected_arg_count =? actual_arg_count) then
        Raise (JavaArgumentCountError
                 (argument_count_message receiver_type method_name
                    expected_arg_count actual_arg_count))
      else
        check_args check_types
          (let expected_types := name <$> parameter_types method in
           actual_types ← comprehension (λ arg, t ← static_type arg; Ok (name t)) args;
           Raise (JavaTypeMismatchError
                    (argument_type_message receiver_type method_name
                       expected_types actual_types)))
          args (parameter_types method)
  | JavaConstructorCall _ _ =>
    Raise (NotImplementedError (class_name e +:+ " must override check_types()"))
  end.

(** An argument passes the loop when it checks and its static type is a
    subtype of its parameter type. *)
Definition argument_passes (arg : JavaExpression) (param_type : JavaType) : Prop :=
  check_types arg = Ok tt ∧
  ∃ arg_type, static_type arg = Ok arg_type ∧ is_subtype_of arg_type param_type = true.

End Checker.
Arguments JavaExpression JavaType : clear implicits.

End Expressions.

Module Fixtures.
Import Types.

(** *** Programs run on the type model, used as concrete inputs *)

(** A list display [[a, b, ...]] builds a new list object. *)
Definition new_list (items : list loc) (h : heap) : loc * heap := alloc (PyList items) h.

Definition loaded : defaults * heap := load_module [].

(** [a = JavaType("T"); b = JavaType("T")] *)
Definition twins : loc * loc * heap :=
  let '(d, h) := loaded in
  let '(a, h) := JavaType_init d "T" None h in
  let '(b, h) := JavaType_init d "T" None h in
  (a, b, h).

(** [a = JavaType("A"); b = JavaType("B"); b.direct_supertypes.append(a)] *)
Definition appended : res (loc * loc * heap) :=
  let '(d, h) := loaded in
  let '(a, h) := JavaType_init d "A" None h in
  let '(b, h) := JavaType_init d "B" None h in
  ds ← get_direct_supertypes h b "direct_supertypes";
  h ← append ds a h;
  Ret (a, b, h).

Definition appended_heap : heap :=
  match appended with Ret (_, _, h) => h | _ => [] end.

(** [[
object = JavaType("Object", [])
graphics = JavaType("Graphics", [object])
rectangle = JavaType("Rectangle", [graphics])
color = JavaType("Color", [object])
other = JavaType("Graphics", [object])
]] *)
Record hierarchy := {
  object : loc; graphics : loc; rectangle : loc; color : loc; other : loc;
  hierarchy_heap : heap
}.

Definition graphics_hierarchy : hierarchy :=
  let '(d, h) := loaded in
  let '(l, h) := new_list [] h in
  let '(object, h) := JavaType_init d "Object" (Some l) h in
  let '(l, h) := new_list [object] h in
  let '(graphics, h) := JavaType_init d "Graphics" (Some l) h in
  let '(l, h) := new_list [graphics] h in
  let '(rectangle, h) := JavaType_init d "Rectangle" (Some l) h in
  let '(l, h) := new_list [object] h in
  let '(color, h) := JavaType_init d "Color" (Some l) h in
  let '(l, h) := new_list [object] h in
  let '(other, h) := JavaType_init d "Graphics" (Some l) h in
  {| object := object; graphics := graphics; rectangle := rectangle; color := color;
     other := other; hierarchy_heap := h |}.

(** [[
draw1 = JavaMethod("draw")
draw2 = JavaMethod("draw")
drawable = JavaClassOrInterface("Drawable", [], methods=[draw1])
printable = JavaClassOrInterface("Printable", [], methods=[draw2])
widget = JavaClassOrInterface("Widget", [drawable, printable])
]] *)
Record diamond := {
  draw1 : loc; draw2 : loc; drawable : loc; printable : loc; widget : loc;
  diamond_heap : heap
}.

Definition diamond_program : res diamond :=
  let '(d, h) := loaded in
  let '(draw1, h) := JavaMethod_init d "draw" None None h in
  let '(draw2, h) := JavaMethod_init d "draw" None None h in
  let '(l, h) := new_list [] h in
  let '(ms, h) := new_list [draw1] h in
  '(drawable, h) ← JavaClassOrInterface_init d "Drawable" (Some l) None (Some ms) h;
  let '(l, h) := new_list [] h in
  let '(ms, h) := new_list [draw2] h in
  '(printable, h) ← JavaClassOrInterface_init d "Printable" (Some l) None (Some ms) h;
  let '(l, h) := new_list [drawable; printable] h in
  '(widget, h) ← JavaClassOrInterface_init d "Widget" (Some l) None None h;
  Ret {| draw1 := draw1; draw2 := draw2; drawable := drawable; printable := printable;
         widget := widget; diamond_heap := h |}.

Definition diamond_classes : diamond :=
  match diamond_program with
  | Ret g => g
  | _ => {| draw1 := 0; draw2 := 0; drawable := 0; printable := 0; widget := 0;
            diamond_heap := [] |}
  end.

(** [[
object = JavaType("Object", [])
draw = JavaMethod("draw")
drawable = JavaClassOrInterface("Drawable", [], methods=[draw])
point = JavaClassOrInterface("Point", [object, drawable])
]] *)
Record mixed := {
  mixed_object : loc; mixed_draw : loc; mixed_drawable : loc; mixed_point : loc;
  mixed_heap : heap
}.

Definition mixed_program : res mixed :=
  let '(d, h) := loaded in
  let '(l, h) := new_list [] h in
  let '(object, h) := JavaType_init d "Object" (Some l) h in
  let '(draw, h) := JavaMethod_init d "draw" None None h in
  let '(l, h) := new_list [] h in
  let '(ms, h) := new_list [draw] h in
  '(drawable, h) ← JavaClassOrInterface_init d "Drawable" (Some l) None (Some ms) h;
  let '(l, h) := new_list [object; drawable] h in
  '(point, h) ← JavaClassOrInterface_init d "Point" (Some l) None None h;
  Ret {| mixed_object := object; mixed_draw := draw; mixed_drawable := drawable;
         mixed_point := point; mixed_heap := h |}.

Definition mixed_classes : mixed :=
  match mixed_program with
  | Ret g => g
  | _ => {| mixed_object := 0; mixed_draw := 0; mixed_drawable := 0; mixed_point := 0;
            mixed_heap := [] |}
  end.

End Fixtures.

Module Graphics.
Import Expressions.

(** *** A types module for running the expressions *)

(** Modelled from the spec: the types that [expressions.py] imports from
    [java_type_checker/types.py] are not among the sources. This instance
    follows the scenarios of the specification: a primitive [int] that is
    not an object type, the object types [Graphics] and its strict subtype
    [Rectangle], the null type, and a method [move(Graphics, int)] of
    [Graphics] that [Rectangle] inherits. [method_named] fails with the
    message of the resolution of the type model,
    "<type> has no method named <name>". *)
Inductive type := INT | GRAPHICS | RECTANGLE | NULL_TYPE.

Definition type_name (t : type) : string :=
  match t with
  | INT => "int"
  | GRAPHICS => "Graphics"
  | RECTANGLE => "Rectangle"
  | NULL_TYPE => "null"
  end.

Definition object_type (t : type) : bool :=
  match t with
  | INT => false
  | _ => true
  end.

Definition subtype (a b : type) : bool :=
  match a, b with
  | INT, INT => true
  | GRAPHICS, GRAPHICS => true
  | RECTANGLE, RECTANGLE | RECTANGLE, GRAPHICS => true
  | NULL_TYPE, NULL_TYPE | NULL_TYPE, GRAPHICS | NULL_TYPE, RECTANGLE => true
  | _, _ => false
  end.

Definition move : JavaMethod type :=
  {| parameter_types := [GRAPHICS; INT]; return_type := GRAPHICS |}.

Definition lookup_method (t : type) (method_name : string) : res (JavaMethod type) :=
  match t with
  | GRAPHICS | RECTANGLE =>
    if String.eqb method_name "move" then Ok move
    else Raise (NoSuchJavaMethod (type_name t +:+ " has no method named " +:+ method_name))
  | _ => Raise (NoSuchJavaMethod (type_name t +:+ " has no method named " +:+ method_name))
  end.

#[global] Instance graphics_types : JavaTypes type := {|
  name := type_name;
  is_object_type := object_type;
  is_subtype_of := subtype;
  method_named := lookup_method;
  NULL := NULL_TYPE
|}.

(** [r = 1] for a variable [Rectangle r]: an ill-typed assignment. *)
Definition bad_assignment : JavaExpression type :=
  JavaAssignment (JavaVariable "r" RECTANGLE) (JavaLiteral "1" INT).

End Graphics.

Module HeapInvariants.
Import Types TypeGraph.

(** *** Heaps without dangling references *)

(** The addresses an object holds in its attributes or items. *)
Definition references (o : obj) : list loc :=
  match o with
  | PyList items => items
  | JavaConstructor argument_types => [argument_types]
  | JavaType _ direct_supertypes => [direct_supertypes]
  | JavaClassOrInterface _ direct_supertypes constructor methods =>
    direct_supertypes :: constructor :: (map_to_list methods).*2
  | JavaMethod _ argument_types return_type => argument_types :: option_list return_type
  end.

(** Every address held by an object of the heap is an address of the heap:
    what a running Python program always has. *)
Definition closed (h : heap) : Prop :=
  ∀ l o, h !! l = Some o → ∀ r, r ∈ references o → r < length h.

Definition closedb (h : heap) : bool :=
  forallb (λ o, forallb (λ r, r <? length h) (references o)) h.

(** The list an instance holds as its ordered sequence:
    [direct_supertypes] of a type, [argument_types] of a constructor or a
    method. *)
Definition sequence_of (o : obj) : option loc :=
  match o with
  | PyList _ => None
  | JavaConstructor argument_types => Some argument_types
  | JavaType _ direct_supertypes => Some direct_supertypes
  | JavaClassOrInterface _ direct_supertypes _ _ => Some direct_supertypes
  | JavaMethod _ argument_types _ => Some argument_types
  end.

(** The items of the sequence of the instance at [x]. *)
Definition sequence_items (h : heap) (x : loc) : option (list loc) :=
  match h !! x with
  | Some o =>
    match sequence_of o with
    | Some l =>
      match h !! l with
      | Some (PyList items) => Some items
      | _ => None
      end
    | None => None
    end
  | None => None
  end.

(** The default objects of the module are objects of the heap. *)
Definition defaults_in (d : defaults) (h : heap) : Prop :=
  JavaConstructor_argument_types d < length h ∧
  JavaType_direct_supertypes d < length h ∧
  JavaClassOrInterface_direct_supertypes d < length h ∧
  JavaClassOrInterface_constructor d < length h ∧
  JavaClassOrInterface_methods d < length h ∧
  JavaMethod_argument_types d < length h.

(** An optional argument, when given, is an object of the heap. *)
Definition argument_in (a : option loc) (h : heap) : Prop :=
  ∀ l, a = Some l → l < length h.

End HeapInvariants.

Module ExpressionShape.
Import Expressions.

Section Shape.
Context {JavaType : Type}.

(** *** Subexpressions *)

(** The node itself and every node below it, children in source order. *)
Fixpoint subexpressions (e : JavaExpression JavaType) : list (JavaExpression JavaType) :=
  e :: match e with
       | JavaAssignment lhs rhs => subexpressions lhs ++ subexpressions rhs
       | JavaMethodCall receiver _ args =>
         subexpressions receiver ++ concat (map subexpressions args)
       | JavaConstructorCall _ args => concat (map subexpressions args)
       | _ => []
       end.

Definition is_constructor_call (e : JavaExpression JavaType) : bool :=
  match e with
  | JavaConstructorCall _ _ => true
  | _ => false
  end.

End Shape.

End ExpressionShape.

(** ** Part II: theorems *)

Module TypesFacts.
Import Types TypeGraph.

(** *** Reading the heap *)

Lemma get_direct_supertypes_is_type h t meth ds :
  get_direct_supertypes h t meth = Ret ds → is_type h t = true.
Proof.
  unfold get_direct_supertypes, is_type.
  destruct (h !! t) as [[]|]; simpl; congruence.
Qed.

Lemma is_type_get_direct_supertypes h t meth :
  is_type h t = true → ∃ ds, get_direct_supertypes h t meth = Ret ds.
Proof.
  unfold get_direct_supertypes, is_type.
  destruct (h !! t) as [[]|]; simpl; try congruence; eauto.
Qed.

Lemma get_direct_supertypes_meth h t meth meth' ds :
  get_direct_supertypes h t meth = Ret ds → get_direct_supertypes h t meth' = Ret ds.
Proof.
  unfold get_direct_supertypes.
  destruct (h !! t) as [[]|]; simpl; congruence.
Qed.

Lemma supertypes_iter h t meth ds ts :
  get_direct_supertypes h t meth = Ret ds → iter h ds = Ret ts →
  supertypes h t = Some ts.
Proof.
  unfold get_direct_supertypes, iter, supertypes.
  destruct (h !! t) as [[]|]; simpl; try congruence;
    intros [= ->]; destruct (h !! ds) as [[]|]; simpl; congruence.
Qed.

Lemma supertypes_inv h t ts :
  supertypes h t = Some ts →
  ∃ ds, (∀ meth, get_direct_supertypes h t meth = Ret ds) ∧ iter h ds = Ret ts.
Proof.
  unfold get_direct_supertypes, iter, supertypes.
  destruct (h !! t) as [[| |n ds|n ds c ms|]|]; simpl; try congruence;
    destruct (h !! ds) as [[]|] eqn:E; simpl; try congruence;
    intros [= ->]; exists ds; rewrite E; auto.
Qed.

Lemma get_direct_supertypes_fuel h t meth : get_direct_supertypes h t meth ≠ OutOfFuel.
Proof. unfold get_direct_supertypes. destruct (h !! t) as [[]|]; done. Qed.

Lemma iter_fuel h l : iter h l ≠ OutOfFuel.
Proof. unfold iter. destruct (h !! l) as [[]|]; done. Qed.

Lemma supertypes_lt h t ts : supertypes h t = Some ts → t < length h.
Proof.
  unfold supertypes. destruct (h !! t) eqn:E; [|congruence].
  intros _. by eapply lookup_lt_Some.
Qed.

Lemma edge_lt h t s : edge h t s → t < length h.
Proof. intros (ts & Hts & _). by eapply supertypes_lt. Qed.

(** *** [any] *)

Lemma any_true {A} (f : A → res bool) l :
  any f l = Ret true →
  ∃ pre x post, l = pre ++ x :: post ∧ f x = Ret true ∧ Forall (λ y, f y = Ret false) pre.
Proof.
  induction l as [|a l IH]; simpl; [congruence|].
  destruct (f a) as [[]| |] eqn:E; try congruence.
  - intros _. exists [], a, l. auto.
  - intros Hl. destruct (IH Hl) as (pre & x & post & -> & Hx & Hpre).
    exists (a :: pre), x, post. auto.
Qed.

Lemma any_false {A} (f : A → res bool) l :
  any f l = Ret false ↔ Forall (λ y, f y = Ret false) l.
Proof.
  induction l as [|a l IH]; simpl.
  - split; auto.
  - split.
    + destruct (f a) as [[]| |] eqn:E; try congruence.
      intros Hl. constructor; [done | by apply IH].
    + intros Hal. apply Forall_cons in Hal as [-> Hl]. by apply IH.
Qed.

Lemma any_first_true {A} (f : A → res bool) pre x post :
  Forall (λ y, ∃ b, f y = Ret b) pre → f x = Ret true →
  any f (pre ++ x :: post) = Ret true.
Proof.
  induction 1 as [|a pre [[] Ha] _ IH]; simpl; intros Hx.
  - by rewrite Hx.
  - by rewrite Ha.
  - rewrite Ha. auto.
Qed.

Lemma any_returns {A} (f : A → res bool) l :
  Forall (λ y, ∃ b, f y = Ret b) l → ∃ b, any f l = Ret b.
Proof.
  induction 1 as [|a l [[] Ha] _ IH]; simpl; eauto; rewrite Ha; eauto.
Qed.

Lemma any_terminates {A} (f : A → res bool) l :
  Forall (λ y, f y ≠ OutOfFuel) l → any f l ≠ OutOfFuel.
Proof.
  induction 1 as [|a l Ha _ IH]; simpl; [congruence|].
  destruct (f a) as [[]| |]; congruence.
Qed.

Lemma any_ext_in {A} (f g : A → res bool) l :
  Forall (λ y, f y ≠ OutOfFuel → g y = f y) l →
  any f l ≠ OutOfFuel → any g l = any f l.
Proof.
  induction 1 as [|a l Ha _ IH]; simpl; [done|].
  destruct (f a) as [[]| |] eqn:E; intros Hne;
    try (rewrite Ha by congruence; auto); congruence.
Qed.

(** *** Fuel *)

(** More fuel never changes an answer. *)
Lemma is_subtype_of_mono h n m self other :
  n ≤ m → is_subtype_of h n self other ≠ OutOfFuel →
  is_subtype_of h m self other = is_subtype_of h n self other.
Proof.
  revert m self. induction n as [|n IH]; intros m self Hle; simpl; [congruence|].
  destruct m as [|m]; [lia|]. simpl.
  destruct (get_direct_supertypes h self "is_subtype_of") as [ds| |]; simpl; try done.
  case_bool_decide; [done|].
  destruct (iter h ds) as [ts| |]; simpl; try done.
  apply any_ext_in. apply Forall_forall. intros t _. apply IH. lia.
Qed.

Lemma is_subtype_of_mono_ret h n m self other b :
  n ≤ m → is_subtype_of h n self other = Ret b → is_subtype_of h m self other = Ret b.
Proof.
  intros Hle Hn. rewrite (is_subtype_of_mono h n m) by (rewrite ?Hn; done). done.
Qed.

(** *** Termination on an acyclic heap *)

Lemma budget_init h self fuel : length h < fuel → budget h [] self fuel.
Proof.
  intros Hlt. split; [constructor|]. split; [|simpl; lia].
  intros p Hp. by apply elem_of_nil in Hp.
Qed.

Lemma budget_pos h path self fuel : budget h path self fuel → ∃ f, fuel = S f.
Proof.
  intros (Hnd & Hin & Hlen).
  assert (length path ≤ length h) as Hle.
  { rewrite <- (length_seq (length h) 0). apply submseteq_length, NoDup_submseteq; [done|].
    intros p Hp. apply elem_of_seq. destruct (Hin p Hp). lia. }
  destruct fuel as [|f]; [lia | eauto].
Qed.

Lemma budget_step h path self f t :
  acyclic h → budget h path self (S f) → edge h self t → budget h (self :: path) t f.
Proof.
  intros Hacyc (Hnd & Hin & Hlen) Hedge. split; [|split].
  - constructor; [|done]. intros Hself. by apply (Hacyc self), Hin.
  - intros p [->|Hp]%elem_of_cons.
    + split; [by eapply edge_lt | by apply tc_once].
    + destruct (Hin p Hp) as [Hlt Htc]. split; [done | by eapply tc_r].
  - simpl. lia.
Qed.

Lemma is_subtype_of_budget h other :
  acyclic h → ∀ fuel path self,
  budget h path self fuel → is_subtype_of h fuel self other ≠ OutOfFuel.
Proof.
  intros Hacyc. induction fuel as [|f IH]; intros path self Hb.
  { apply budget_pos in Hb as [f [=]]. }
  simpl. destruct (get_direct_supertypes h self "is_subtype_of") as [ds| |] eqn:Hds;
    simpl; try done; [|by destruct (get_direct_supertypes_fuel _ _ _ Hds)].
  case_bool_decide; [done|].
  destruct (iter h ds) as [ts| |] eqn:Hts; simpl; try done;
    [|by destruct (iter_fuel _ _ Hts)].
  apply any_terminates, Forall_forall. intros t Ht.
  apply (IH (self :: path)), budget_step; [done..|].
  exists ts. split; [by eapply supertypes_iter | done].
Qed.

Lemma is_subtype_of_acyclic h self other fuel :
  acyclic h → length h < fuel → is_subtype_of h fuel self other ≠ OutOfFuel.
Proof. intros Hacyc Hlt. by eapply is_subtype_of_budget, budget_init. Qed.

(** *** No exception on a well-formed heap *)

Lemma any_no_raise {A} (f : A → res bool) l :
  Forall (λ y, ∀ e, f y ≠ Raise e) l → ∀ e, any f l ≠ Raise e.
Proof.
  induction 1 as [|a l Ha _ IH]; simpl; intros e; [congruence|].
  destruct (f a) as [[]| |] eqn:E; first [congruence | apply IH].
Qed.

Lemma is_subtype_of_no_raise h other :
  well_formed h → ∀ fuel self e,
  is_type h self = true → is_subtype_of h fuel self other ≠ Raise e.
Proof.
  intros Hwf. induction fuel as [|f IH]; intros self e Hself; simpl; [done|].
  destruct (Hwf self Hself) as (ts & Hts & Hall).
  destruct (supertypes_inv _ _ _ Hts) as (ds & Hds & Hiter).
  rewrite Hds. simpl. case_bool_decide; [done|]. rewrite Hiter. simpl.
  apply any_no_raise, Forall_forall. intros t Ht e'. apply IH. by apply Hall.
Qed.

Lemma is_subtype_of_returns h self other fuel :
  well_formed h → acyclic h → is_type h self = true → length h < fuel →
  ∃ b, is_subtype_of h fuel self other = Ret b.
Proof.
  intros Hwf Hacyc Hself Hlt.
  pose proof (is_subtype_of_acyclic h self other fuel Hacyc Hlt) as Hfuel.
  pose proof (is_subtype_of_no_raise h other Hwf fuel self) as Hraise.
  destruct (is_subtype_of h fuel self other) as [b|e|]; [eauto | | done].
  by destruct (Hraise e Hself).
Qed.

(** *** The traversal computes reachability *)

Lemma is_subtype_of_sound h other fuel self :
  is_subtype_of h fuel self other = Ret true → reachable h self other.
Proof.
  revert self. induction fuel as [|f IH]; intros self; simpl; [done|].
  destruct (get_direct_supertypes h self "is_subtype_of") as [ds| |] eqn:Hds;
    simpl; try done.
  case_bool_decide as Heq; [intros _; subst; apply rtc_refl|].
  destruct (iter h ds) as [ts| |] eqn:Hts; simpl; try done.
  intros (pre & t & post & -> & Ht & _)%any_true.
  eapply rtc_l; [|by apply IH].
  exists (pre ++ t :: post). split; [by eapply supertypes_iter | set_solver].
Qed.

Lemma is_subtype_of_complete h other fuel self b :
  reachable h self other → is_subtype_of h fuel self other = Ret b → b = true.
Proof.
  revert self b. induction fuel as [|f IH]; intros self b Hreach; simpl; [done|].
  destruct (get_direct_supertypes h self "is_subtype_of") as [ds| |] eqn:Hds;
    simpl; try done.
  case_bool_decide as Heq; [congruence|].
  destruct (iter h ds) as [ts| |] eqn:Hts; simpl; try done.
  apply rtc_inv in Hreach as [->|(t & (ts' & Hts' & Ht) & Hreach)]; [done|].
  rewrite (supertypes_iter _ _ _ _ _ Hds Hts) in Hts'. injection Hts' as <-.
  destruct b; [done|]. intros Hall%any_false.
  rewrite Forall_forall in Hall. by eapply IH, Hall.
Qed.

(** *** Checking a concrete heap *)

Lemma older_supertypes_edge h t s : older_supertypes h = true → edge h t s → s < t.
Proof.
  unfold older_supertypes. rewrite forallb_forall.
  intros Hall (ts & Hts & Hs).
  specialize (Hall t). rewrite Hts in Hall. rewrite forallb_forall in Hall.
  apply Nat.ltb_lt, Hall.
  - apply in_seq. apply supertypes_lt in Hts. lia.
  - by apply list_elem_of_In.
Qed.

Lemma older_supertypes_acyclic h : older_supertypes h = true → acyclic h.
Proof.
  intros Hold t Htc.
  assert (∀ a b, tc (edge h) a b → b < a) as Hlt.
  { induction 1 as [a b Hab|a b c Hab _ IH].
    - by eapply older_supertypes_edge.
    - apply (older_supertypes_edge _ _ _ Hold) in Hab. lia. }
  apply Hlt in Htc. lia.
Qed.

Lemma is_type_lt h t : is_type h t = true → t < length h.
Proof.
  unfold is_type. destruct (h !! t) eqn:E; [|done]. intros _. by eapply lookup_lt_Some.
Qed.

Lemma all_types_ok_well_formed h : all_types_ok h = true → well_formed h.
Proof.
  unfold all_types_ok. rewrite forallb_forall. intros Hall t Ht.
  specialize (Hall t). rewrite Ht in Hall. simpl in Hall.
  destruct (supertypes h t) as [ts|].
  - exists ts. split; [done|]. intros s Hs.
    assert (forallb (is_type h) ts = true) as Hts.
    { apply Hall, in_seq. apply is_type_lt in Ht. lia. }
    rewrite forallb_forall in Hts. by apply Hts, list_elem_of_In.
  - assert (false = true) as [=]. apply Hall, in_seq. apply is_type_lt in Ht. lia.
Qed.

Lemma traversal_false_unreachable h fuel a b :
  is_subtype_of h fuel a b = Ret false → ¬ tc (edge h) a b.
Proof.
  intros Hf Htc. apply tc_rtc in Htc.
  by pose proof (is_subtype_of_complete _ _ _ _ _ Htc Hf).
Qed.

(** *** The subtype relation: reflexivity, transitivity, termination, identity *)

Import Fixtures.

Example twins_heap :
  twins = (7, 8, [PyList []; PyList []; PyList []; PyList []; JavaConstructor 3;
                  PyList []; PyList []; JavaType "T" 1; JavaType "T" 1]).
Proof. reflexivity. Qed.

(** C6: for every type T, [T.is_subtype_of(T)] is true, and it is the identity
    test [other == self] that decides it: the answer is there whatever
    [T.direct_supertypes] holds, while two distinct objects that are equal
    field by field (same name, same supertype list) are not subtypes of one
    another. *)
Theorem is_subtype_of_reflexive :
  (∀ h T fuel, is_type h T = true → is_subtype_of h (S fuel) T T = Ret true) ∧
  (let '(a, b, h) := twins in
   a ≠ b ∧ h !! a = h !! b ∧ is_type h a = true ∧
   ∀ fuel, is_subtype_of h (S fuel) a b = Ret false).
Proof.
  split.
  - intros h T fuel [ds Hds]%(is_type_get_direct_supertypes _ _ "is_subtype_of").
    simpl. rewrite Hds. simpl. by rewrite bool_decide_eq_true_2.
  - simpl. split; [lia|]. split; [done|]. split; [done|]. intros fuel. reflexivity.
Qed.

Lemma is_subtype_of_reflexive_witness :
  is_type (twins.2) 7 = true ∧ is_subtype_of (twins.2) 1 7 7 = Ret true.
Proof.
  split; [reflexivity | apply (proj1 is_subtype_of_reflexive); reflexivity].
Defined.

(** The traversal is transitive at any fuel that answers: whatever was
    explored to answer the premises is explored again for the conclusion. *)
Lemma is_subtype_of_false_returns h other other' fuel self :
  is_subtype_of h fuel self other = Ret false →
  ∃ b, is_subtype_of h fuel self other' = Ret b.
Proof.
  revert self. induction fuel as [|f IH]; intros self; simpl; [done|].
  destruct (get_direct_supertypes h self "is_subtype_of") as [ds| |]; simpl; try done.
  case_bool_decide; [done|].
  case_bool_decide; [eauto|].
  destruct (iter h ds) as [ts| |]; simpl; try done.
  intros Hall%any_false. apply any_returns.
  eapply Forall_impl; [exact Hall|]. intros t Ht. by apply IH.
Qed.

Lemma is_subtype_of_trans h n m c b a :
  is_subtype_of h n c b = Ret true → is_subtype_of h m b a = Ret true →
  is_subtype_of h (n + m) c a = Ret true.
Proof.
  revert c. induction n as [|n IH]; intros c; simpl; [done|].
  destruct (get_direct_supertypes h c "is_subtype_of") as [ds| |] eqn:Hds; simpl; try done.
  case_bool_decide as Hbc.
  { subst c. intros _ Hba. apply (is_subtype_of_mono_ret h m (S (n + m))) in Hba; [|lia].
    simpl in Hba. by rewrite Hds in Hba. }
  case_bool_decide as Hac; [done|].
  destruct (iter h ds) as [ts| |]; simpl; try done.
  intros (pre & t & post & -> & Ht & Hpre)%any_true Hba.
  apply any_first_true; [|by apply IH].
  eapply Forall_impl; [exact Hpre|]. intros p Hp. simpl in Hp.
  destruct (is_subtype_of_false_returns h b a n p Hp) as [r Hr].
  exists r. eapply is_subtype_of_mono_ret; [|exact Hr]. lia.
Qed.

Lemma is_supertype_of_inv h fuel self other b :
  is_supertype_of h fuel self other = Ret b →
  is_type h self = true ∧ is_subtype_of h fuel other self = Ret b.
Proof.
  unfold is_supertype_of.
  destruct (get_direct_supertypes h self "is_supertype_of") as [ds| |] eqn:Hds;
    simpl; try done.
  intros Hb. split; [by eapply get_direct_supertypes_is_type | done].
Qed.

(** C7: on an acyclic supertype graph, if A is a supertype of B and B is a
    supertype of C then A is a supertype of C; in terms of [is_subtype_of]:
    [C.is_subtype_of(B)] and [B.is_subtype_of(A)] give [C.is_subtype_of(A)].
    The conclusion holds at every recursion budget above the size of the
    heap. *)
Theorem is_supertype_of_transitive h A B C n m fuel :
  acyclic h →
  is_supertype_of h n A B = Ret true →
  is_supertype_of h m B C = Ret true →
  length h < fuel →
  is_supertype_of h fuel A C = Ret true ∧ is_subtype_of h fuel C A = Ret true.
Proof.
  intros Hacyc [HA HBA]%is_supertype_of_inv [HB HCB]%is_supertype_of_inv Hfuel.
  assert (is_subtype_of h fuel C A = Ret true) as HCA.
  { pose proof (is_subtype_of_trans _ _ _ _ _ _ HCB HBA) as Ht.
    pose proof (is_subtype_of_acyclic h C A fuel Hacyc Hfuel) as Hne.
    destruct (Nat.le_ge_cases fuel (m + n)) as [Hle|Hle].
    - rewrite <- (is_subtype_of_mono h fuel (m + n)); done.
    - by eapply is_subtype_of_mono_ret. }
  split; [|done]. unfold is_supertype_of.
  destruct (is_type_get_direct_supertypes h A "is_supertype_of" HA) as [ds ->]. done.
Qed.

Example graphics_hierarchy_heap :
  graphics_hierarchy =
  {| object := 8; graphics := 10; rectangle := 12; color := 14; other := 16;
     hierarchy_heap :=
       [PyList []; PyList []; PyList []; PyList []; JavaConstructor 3; PyList []; PyList [];
        PyList []; JavaType "Object" 7;
        PyList [8]; JavaType "Graphics" 9;
        PyList [10]; JavaType "Rectangle" 11;
        PyList [8]; JavaType "Color" 13;
        PyList [8]; JavaType "Graphics" 15] |}.
Proof. reflexivity. Qed.

Lemma graphics_hierarchy_acyclic : acyclic (hierarchy_heap graphics_hierarchy).
Proof. apply older_supertypes_acyclic. reflexivity. Qed.

Lemma graphics_hierarchy_well_formed : well_formed (hierarchy_heap graphics_hierarchy).
Proof. apply all_types_ok_well_formed. reflexivity. Qed.

Lemma is_supertype_of_transitive_witness :
  let g := graphics_hierarchy in
  is_supertype_of (hierarchy_heap g) 18 (object g) (rectangle g) = Ret true ∧
  is_subtype_of (hierarchy_heap g) 18 (rectangle g) (object g) = Ret true.
Proof.
  apply (is_supertype_of_transitive _ _ (graphics graphics_hierarchy) _ 2 2).
  - apply graphics_hierarchy_acyclic.
  - reflexivity.
  - reflexivity.
  - simpl. lia.
Defined.

Example appended_result :
  appended = Ret (7, 8, [PyList []; PyList [7]; PyList []; PyList []; JavaConstructor 3;
                         PyList []; PyList []; JavaType "A" 1; JavaType "B" 1]).
Proof. reflexivity. Qed.

Lemma appended_cyclic : ¬ acyclic appended_heap.
Proof.
  intros Hacyc. apply (Hacyc 7), tc_once. exists [7]. split; [reflexivity | set_solver].
Qed.

Lemma appended_diverges fuel : is_subtype_of appended_heap fuel 7 8 = OutOfFuel.
Proof. induction fuel as [|f IH]; [done|]. simpl. by rewrite IH. Qed.

(** C8: on an acyclic supertype graph [is_subtype_of] terminates for every
    receiver and every other type: a recursion budget above the size of the
    heap is never exhausted, the answer no longer depends on the budget, and
    on a graph of types it is a boolean. Nothing checks the precondition:
    on the cyclic graph that [b.direct_supertypes.append(a)] builds, the
    call [a.is_subtype_of(b)] exhausts every budget. *)
Theorem is_subtype_of_terminates :
  (∀ h self other fuel, acyclic h → length h < fuel →
     is_subtype_of h fuel self other ≠ OutOfFuel ∧
     is_subtype_of h fuel self other = is_subtype_of h (S (length h)) self other) ∧
  (∀ h self other fuel, acyclic h → well_formed h → is_type h self = true →
     length h < fuel → ∃ b, is_subtype_of h fuel self other = Ret b) ∧
  (¬ acyclic appended_heap ∧ ∀ fuel, is_subtype_of appended_heap fuel 7 8 = OutOfFuel).
Proof.
  split; [|split].
  - intros h self other fuel Hacyc Hfuel. split.
    + by apply is_subtype_of_acyclic.
    + apply is_subtype_of_mono; [lia|]. apply is_subtype_of_acyclic; [done | lia].
  - intros h self other fuel Hacyc Hwf Hself Hfuel. by apply is_subtype_of_returns.
  - split; [exact appended_cyclic | exact appended_diverges].
Qed.

Lemma is_subtype_of_terminates_witness :
  let g := graphics_hierarchy in
  is_subtype_of (hierarchy_heap g) 18 (rectangle g) (color g) ≠ OutOfFuel ∧
  is_subtype_of (hierarchy_heap g) 18 (rectangle g) (color g) =
  is_subtype_of (hierarchy_heap g) (S (length (hierarchy_heap g))) (rectangle g) (color g).
Proof.
  apply (proj1 is_subtype_of_terminates).
  - apply graphics_hierarchy_acyclic.
  - simpl. lia.
Defined.

(** C10: subtype comparison between distinct type objects is by object
    identity. For distinct [A] and [B] with [B] not reachable through the
    direct-supertype chains of [A], [A.is_subtype_of(B)] is false; the names
    of the two types play no part, so it is false also when they are equal. *)
Theorem is_subtype_of_distinct_unreachable h A B fuel :
  well_formed h → acyclic h → is_type h A = true →
  A ≠ B → ¬ tc (edge h) A B → length h < fuel →
  is_subtype_of h fuel A B = Ret false.
Proof.
  intros Hwf Hacyc HA Hne Hunreach Hfuel.
  destruct (is_subtype_of_returns h A B fuel Hwf Hacyc HA Hfuel) as [[] Hb]; [|done].
  apply is_subtype_of_sound, rtc_tc in Hb as [?|?]; done.
Qed.

Lemma is_subtype_of_distinct_unreachable_witness :
  let g := graphics_hierarchy in
  type_name (hierarchy_heap g) (graphics g) = type_name (hierarchy_heap g) (other g) ∧
  is_subtype_of (hierarchy_heap g) 18 (graphics g) (other g) = Ret false.
Proof.
  split; [reflexivity|].
  apply is_subtype_of_distinct_unreachable.
  - apply graphics_hierarchy_well_formed.
  - apply graphics_hierarchy_acyclic.
  - reflexivity.
  - simpl. lia.
  - apply (traversal_false_unreachable _ 18). reflexivity.
  - simpl. lia.
Defined.

(** *** Method resolution *)

Lemma first_resolved_hit (f : loc → res loc) fail pre s post m :
  Forall (λ p, ∃ msg, f p = Raise (NoSuchMethod msg)) pre → f s = Ret m →
  first_resolved f fail (pre ++ s :: post) = Ret m.
Proof.
  induction 1 as [|p pre [msg Hp] _ IH]; simpl; intros Hs.
  - by rewrite Hs.
  - rewrite Hp. auto.
Qed.

Lemma first_resolved_cases (f : loc → res loc) fail ts
    (P : loc → loc → Prop) (Q : loc → Prop) :
  Forall (λ s, (∃ m, f s = Ret m ∧ P s m) ∨
               ((∃ msg, f s = Raise (NoSuchMethod msg)) ∧ Q s)) ts →
  (∃ pre s post m, ts = pre ++ s :: post ∧ Forall Q pre ∧ P s m ∧
                   first_resolved f fail ts = Ret m) ∨
  (Forall Q ts ∧ first_resolved f fail ts = Raise fail).
Proof.
  induction 1 as [|t ts Ht _ IH]; simpl.
  - right. split; [constructor | done].
  - destruct Ht as [(m & Hm & HP)|[(msg & Hmsg) HQ]].
    + left. exists [], t, ts, m. rewrite Hm. repeat split; [constructor | done].
    + rewrite Hmsg. destruct IH as [(pre & s & post & m & -> & Hpre & HP & Hr)|[Hall Hr]].
      * left. exists (t :: pre), s, post, m. repeat split; [by constructor | done..].
      * right. split; [by constructor | done].
Qed.

Lemma is_class_inv h t :
  is_class h t = true → ∃ n ds c ms, h !! t = Some (JavaClassOrInterface n ds c ms).
Proof. unfold is_class. destruct (h !! t) as [[]|]; try done. eauto. Qed.

Lemma resolves_declared h name t m :
  resolves h name t m → ∃ s, reachable h t s ∧ own_method h s name = Some m.
Proof.
  induction 1 as [t m Hown|t pre s post m _ Hts _ _ (s' & Hreach & Hown)].
  - exists t. split; [apply rtc_refl | done].
  - exists s'. split; [|done]. eapply rtc_l; [|done].
    exists (pre ++ s :: post). split; [done | set_solver].
Qed.

Section Resolution.
Variable h : heap.
Variable name : string.
Variable root : loc.
Hypothesis Hacyc : acyclic h.
Hypothesis Hanc : class_ancestry h root.

Lemma ancestor_supertypes t :
  reachable h root t →
  is_class h t = true ∧
  ∃ ts, supertypes h t = Some ts ∧ ∀ s, s ∈ ts → reachable h root s.
Proof using Hanc.
  intros Hreach. destruct (Hanc t Hreach) as (Ht & ts & Hts). split; [done|].
  exists ts. split; [done|]. intros s Hs. eapply rtc_r; [done|]. by exists ts.
Qed.

Lemma method_named_budget fuel : ∀ path t,
  budget h path t fuel → reachable h root t →
  (∃ m, method_named h fuel t name = Ret m ∧ resolves h name t m) ∨
  (method_named h fuel t name = Raise (no_such_method h name t) ∧ no_ancestor_declares h t name).
Proof using Hacyc Hanc.
  induction fuel as [|f IH]; intros path t Hb Hreach.
  { apply budget_pos in Hb as [f [=]]. }
  destruct (ancestor_supertypes t Hreach) as (Ht & ts & Hts & Hall).
  destruct (is_class_inv h t Ht) as (n & ds & c & ms & Hlook).
  destruct (supertypes_inv _ _ _ Hts) as (ds' & Hds & Hiter).
  specialize (Hds ""). unfold get_direct_supertypes in Hds. rewrite Hlook in Hds.
  injection Hds as <-.
  assert (own_method h t name = ms !! name) as Hown by (unfold own_method; by rewrite Hlook).
  assert (type_name h t = n) as Hn by (unfold type_name; by rewrite Hlook).
  unfold no_such_method. rewrite Hn. simpl. rewrite Hlook.
  destruct (ms !! name) as [m|] eqn:Hm.
  { left. exists m. split; [done | by apply resolves_own]. }
  rewrite Hiter. simpl.
  destruct (first_resolved_cases (λ s, method_named h f s name)
              (NoSuchMethod (n +:+ " has no method named " +:+ name)) ts
              (resolves h name) (λ s, no_ancestor_declares h s name))
    as [(pre & s & post & m & -> & Hpre & Hres & Hr)|[Hnone Hr]].
  - apply Forall_forall. intros s Hs.
    destruct (IH (t :: path) s) as [?|[? ?]]; [| by apply Hall | by left | right; eauto].
    apply budget_step; [done..|]. by exists ts.
  - left. exists m. split; [done|].
    eapply resolves_inherited; [done..| |done]. by apply Forall_forall.
  - right. split; [done|]. intros s [->|(t' & (ts' & Hts' & Ht') & Hr')]%rtc_inv.
    + by rewrite Hown.
    + rewrite Hts in Hts'. injection Hts' as <-.
      rewrite Forall_forall in Hnone. by apply (Hnone t').
Qed.

Lemma resolves_method_named t m :
  resolves h name t m → ∀ fuel path,
  budget h path t fuel → reachable h root t → method_named h fuel t name = Ret m.
Proof using Hacyc Hanc.
  induction 1 as [t m Hown|t pre s post m Hown Hts Hpre _ IH]; intros fuel path Hb Hreach.
  - destruct (budget_pos _ _ _ _ Hb) as [f ->].
    destruct (ancestor_supertypes t Hreach) as (Ht & _).
    destruct (is_class_inv h t Ht) as (n & ds & c & ms & Hlook).
    unfold own_method in Hown. rewrite Hlook in Hown. simpl. by rewrite Hlook, Hown.
  - destruct (budget_pos _ _ _ _ Hb) as [f ->].
    destruct (ancestor_supertypes t Hreach) as (Ht & ts & Hts' & Hall).
    rewrite Hts in Hts'. injection Hts' as <-.
    destruct (is_class_inv h t Ht) as (n & ds & c & ms & Hlook).
    destruct (supertypes_inv _ _ _ Hts) as (ds' & Hds & Hiter).
    specialize (Hds ""). unfold get_direct_supertypes in Hds. rewrite Hlook in Hds.
    injection Hds as <-.
    unfold own_method in Hown. rewrite Hlook in Hown. simpl. rewrite Hlook, Hown, Hiter.
    simpl. apply first_resolved_hit.
    + apply Forall_forall. intros p Hp.
      destruct (method_named_budget f (t :: path) p) as [(m' & _ & Hres)|[Hr _]].
      * apply budget_step; [done..|]. exists (pre ++ s :: post). split; [done | set_solver].
      * apply Hall. set_solver.
      * apply resolves_declared in Hres as (s' & Hreach' & Hdecl).
        rewrite (Hpre p Hp s' Hreach') in Hdecl. done.
      * eauto.
    + apply (IH f (t :: path)).
      * apply budget_step; [done..|]. exists (pre ++ s :: post). split; [done | set_solver].
      * apply Hall. set_solver.
Qed.

End Resolution.

Lemma class_hierarchy_ancestry h t :
  class_hierarchy h → is_class h t = true → class_ancestry h t.
Proof.
  intros Hcls Ht s Hreach. induction Hreach as [t|t t' s (ts & Hts & Ht') _ IH].
  - split; [done|]. destruct (Hcls t Ht) as (ts & Hts & _). by exists ts.
  - apply IH. destruct (Hcls t Ht) as (ts' & Hts' & Hall).
    rewrite Hts in Hts'. injection Hts' as <-. by apply Hall.
Qed.

Lemma is_class_lt h t : is_class h t = true → t < length h.
Proof.
  unfold is_class. destruct (h !! t) eqn:E; [|done]. intros _. by eapply lookup_lt_Some.
Qed.

Lemma all_classes_ok_class_hierarchy h : all_classes_ok h = true → class_hierarchy h.
Proof.
  unfold all_classes_ok. rewrite forallb_forall. intros Hall t Ht.
  specialize (Hall t). rewrite Ht in Hall. simpl in Hall.
  destruct (supertypes h t) as [ts|].
  - exists ts. split; [done|]. intros s Hs.
    assert (forallb (is_class h) ts = true) as Hts.
    { apply Hall, in_seq. apply is_class_lt in Ht. lia. }
    rewrite forallb_forall in Hts. by apply Hts, list_elem_of_In.
  - assert (false = true) as [=]. apply Hall, in_seq. apply is_class_lt in Ht. lia.
Qed.


(** Outside a class hierarchy the search does not end in [NoSuchMethod]: a
    plain [JavaType] among the supertypes has no [method_named]. *)
Example method_named_plain_supertype :
  method_named [PyList []; JavaType "Object" 0; PyList [1];
                JavaClassOrInterface "Point" 2 0 ∅] 5 3 "draw" =
  Raise (AttributeError "'JavaType' object has no attribute 'method_named'").
Proof. reflexivity. Qed.

Example diamond_classes_heap :
  diamond_classes =
  {| draw1 := 7; draw2 := 8; drawable := 11; printable := 14; widget := 16;
     diamond_heap :=
       [PyList []; PyList []; PyList []; PyList []; JavaConstructor 3; PyList []; PyList [];
        JavaMethod "draw" 6 None; JavaMethod "draw" 6 None;
        PyList []; PyList [7]; JavaClassOrInterface "Drawable" 9 4 {[ "draw" := 7 ]};
        PyList []; PyList [8]; JavaClassOrInterface "Printable" 12 4 {[ "draw" := 8 ]};
        PyList [11; 14]; JavaClassOrInterface "Widget" 15 4 ∅] |}.
Proof. reflexivity. Qed.


Example mixed_classes_heap :
  mixed_classes =
  {| mixed_object := 8; mixed_draw := 9; mixed_drawable := 12; mixed_point := 14;
     mixed_heap :=
       [PyList []; PyList []; PyList []; PyList []; JavaConstructor 3; PyList []; PyList [];
        PyList []; JavaType "Object" 7;
        JavaMethod "draw" 6 None;
        PyList []; PyList [9]; JavaClassOrInterface "Drawable" 10 4 {[ "draw" := 9 ]};
        PyList [8; 12]; JavaClassOrInterface "Point" 13 4 ∅] |}.
Proof. reflexivity. Qed.

Lemma mixed_leaf_reachable t s :
  supertypes (mixed_heap mixed_classes) t = Some [] →
  reachable (mixed_heap mixed_classes) t s → s = t.
Proof.
  intros Ht [->|(t' & (ts & Hts & Ht') & _)]%rtc_inv; [done|].
  rewrite Ht in Hts. injection Hts as <-. by apply elem_of_nil in Ht'.
Qed.


(** *** Default arguments *)

Lemma alloc_lookup_new o h : (alloc o h).2 !! (alloc o h).1 = Some o.
Proof. unfold alloc. by apply list_lookup_middle. Qed.

Lemma alloc_lookup_old o h l x : h !! l = Some x → (alloc o h).2 !! l = Some x.
Proof. unfold alloc. simpl. intros Hl. by apply lookup_app_l_Some. Qed.

Lemma alloc_fresh o h l x : h !! l = Some x → l ≠ (alloc o h).1.
Proof. unfold alloc. simpl. intros Hl%lookup_lt_Some. lia. Qed.

Lemma methods_dict_fuel h ms acc : methods_dict h ms acc ≠ OutOfFuel.
Proof.
  revert acc. induction ms as [|m ms IH]; intros acc; simpl; [done|].
  unfold get_name. destruct (h !! m) as [[]|]; simpl; done.
Qed.

(** C9, the counterexample: two [JavaType] instances constructed without a
    [direct_supertypes] argument are distinct objects holding one and the
    same list object, and an append through one is seen through the other. *)
Lemma default_list_is_aliased :
  (let '(a, b, h) := twins in
   a ≠ b ∧
   get_direct_supertypes h a "direct_supertypes" = Ret 1 ∧
   get_direct_supertypes h b "direct_supertypes" = Ret 1) ∧
  supertypes appended_heap 8 = Some [7] ∧ supertypes appended_heap 7 = Some [7].
Proof.
  split; [|by split]. rewrite twins_heap. split; [lia|]. by split.
Qed.

Lemma alloc_twice o1 o2 h :
  let r1 := alloc o1 h in
  let r2 := alloc o2 r1.2 in
  r1.1 ≠ r2.1 ∧ r2.2 !! r1.1 = Some o1 ∧ r2.2 !! r2.1 = Some o2.
Proof.
  intros r1 r2. split; [|split].
  - apply (alloc_fresh o2 r1.2 r1.1 o1), alloc_lookup_new.
  - apply alloc_lookup_old, alloc_lookup_new.
  - apply alloc_lookup_new.
Qed.

Lemma JavaClassOrInterface_init_inv d n ds c ms h a h' :
  JavaClassOrInterface_init d n ds c ms h = Ret (a, h') →
  ∃ dict, (a, h') =
    alloc (JavaClassOrInterface n
             (default (JavaClassOrInterface_direct_supertypes d) ds)
             (default (JavaClassOrInterface_constructor d) c) dict) h.
Proof.
  unfold JavaClassOrInterface_init.
  destruct (iter h _) as [items| |]; simpl; try done.
  destruct (methods_dict h items ∅) as [dict| |]; simpl; try done.
  intros [= <- <-]. by exists dict.
Qed.

Lemma append_shared h a b n1 n2 l items x :
  h !! a = Some (JavaType n1 l) → h !! b = Some (JavaType n2 l) →
  h !! l = Some (PyList items) →
  ∃ h', append l x h = Ret h' ∧
        supertypes h' a = Some (items ++ [x]) ∧ supertypes h' b = Some (items ++ [x]).
Proof.
  intros Ha Hb Hl. unfold append. rewrite Hl. eexists. split; [done|].
  assert (l ≠ a) by congruence. assert (l ≠ b) by congruence.
  unfold supertypes.
  rewrite !list_lookup_insert_ne, Ha, Hb by done.
  rewrite list_lookup_insert_eq by (by eapply lookup_lt_Some). done.
Qed.

Import HeapInvariants.

Lemma append_shared_sequence h a b oa ob l items x :
  h !! a = Some oa → h !! b = Some ob →
  sequence_of oa = Some l → sequence_of ob = Some l →
  h !! l = Some (PyList items) →
  ∃ h', append l x h = Ret h' ∧
        sequence_items h' a = Some (items ++ [x]) ∧
        sequence_items h' b = Some (items ++ [x]).
Proof.
  intros Ha Hb Hoa Hob Hl. unfold append. rewrite Hl. eexists. split; [done|].
  assert (l ≠ a) by (intros ->; rewrite Ha in Hl; by injection Hl as ->).
  assert (l ≠ b) by (intros ->; rewrite Hb in Hl; by injection Hl as ->).
  unfold sequence_items.
  rewrite !list_lookup_insert_ne, Ha, Hb, Hoa, Hob by done.
  rewrite list_lookup_insert_eq by (by eapply lookup_lt_Some). done.
Qed.

(** C9, as the code has it: an instance constructed without an explicit
    sequence argument holds the default list object of its class's
    [__init__], the one list made when the [def] ran. Two distinct instances
    of a class so constructed therefore hold the same list ([JavaType] and
    [JavaClassOrInterface] for [direct_supertypes], [JavaConstructor] and
    [JavaMethod] for [argument_types]; two [JavaClassOrInterface] instances
    also hold the same default constructor). Whenever two instances of any
    of the four classes hold the same list, what is appended to the list is
    in the sequence of both. An instance of any of the four classes
    constructed with an explicit list holds the list it was given, and a
    [JavaClassOrInterface] constructed with an explicit constructor holds
    the constructor it was given. *)
Theorem default_sequence_is_shared (d : defaults) (h : heap) :
  (∀ n1 n2,
     let r1 := JavaType_init d n1 None h in
     let r2 := JavaType_init d n2 None r1.2 in
     r1.1 ≠ r2.1 ∧
     r2.2 !! r1.1 = Some (JavaType n1 (JavaType_direct_supertypes d)) ∧
     r2.2 !! r2.1 = Some (JavaType n2 (JavaType_direct_supertypes d))) ∧
  (let r1 := JavaConstructor_init d None h in
   let r2 := JavaConstructor_init d None r1.2 in
   r1.1 ≠ r2.1 ∧
   r2.2 !! r1.1 = Some (JavaConstructor (JavaConstructor_argument_types d)) ∧
   r2.2 !! r2.1 = Some (JavaConstructor (JavaConstructor_argument_types d))) ∧
  (∀ n1 n2 t1 t2,
     let r1 := JavaMethod_init d n1 None t1 h in
     let r2 := JavaMethod_init d n2 None t2 r1.2 in
     r1.1 ≠ r2.1 ∧
     r2.2 !! r1.1 = Some (JavaMethod n1 (JavaMethod_argument_types d) t1) ∧
     r2.2 !! r2.1 = Some (JavaMethod n2 (JavaMethod_argument_types d) t2)) ∧
  (∀ n1 n2 ms1 ms2 a h1 b h2,
     JavaClassOrInterface_init d n1 None None ms1 h = Ret (a, h1) →
     JavaClassOrInterface_init d n2 None None ms2 h1 = Ret (b, h2) →
     a ≠ b ∧
     ∃ dict1 dict2,
       h2 !! a = Some (JavaClassOrInterface n1 (JavaClassOrInterface_direct_supertypes d)
                         (JavaClassOrInterface_constructor d) dict1) ∧
       h2 !! b = Some (JavaClassOrInterface n2 (JavaClassOrInterface_direct_supertypes d)
                         (JavaClassOrInterface_constructor d) dict2)) ∧
  (∀ a b n1 n2 l items x,
     h !! a = Some (JavaType n1 l) → h !! b = Some (JavaType n2 l) →
     h !! l = Some (PyList items) →
     ∃ h', append l x h = Ret h' ∧
           supertypes h' a = Some (items ++ [x]) ∧ supertypes h' b = Some (items ++ [x])) ∧
  (∀ a b oa ob l items x,
     h !! a = Some oa → h !! b = Some ob →
     sequence_of oa = Some l → sequence_of ob = Some l →
     h !! l = Some (PyList items) →
     ∃ h', append l x h = Ret h' ∧
           sequence_items h' a = Some (items ++ [x]) ∧
           sequence_items h' b = Some (items ++ [x])) ∧
  (∀ n l, let r := JavaType_init d n (Some l) h in r.2 !! r.1 = Some (JavaType n l)) ∧
  (∀ l, let r := JavaConstructor_init d (Some l) h in
        r.2 !! r.1 = Some (JavaConstructor l)) ∧
  (∀ n l t, let r := JavaMethod_init d n (Some l) t h in
            r.2 !! r.1 = Some (JavaMethod n l t)) ∧
  (∀ n l c ms a h',
     JavaClassOrInterface_init d n (Some l) c ms h = Ret (a, h') →
     ∃ c' dict, h' !! a = Some (JavaClassOrInterface n l c' dict)) ∧
  (∀ n ds c ms a h',
     JavaClassOrInterface_init d n ds (Some c) ms h = Ret (a, h') →
     ∃ l dict, h' !! a = Some (JavaClassOrInterface n l c dict)).
Proof.
  split; [|split; [|split; [|split; [|split; [|split; [|split; [|split; [|split;
    [|split]]]]]]]]].
  - intros n1 n2. apply alloc_twice.
  - apply alloc_twice.
  - intros n1 n2 t1 t2. apply alloc_twice.
  - intros n1 n2 ms1 ms2 a h1 b h2
      [dict1 H1]%JavaClassOrInterface_init_inv [dict2 H2]%JavaClassOrInterface_init_inv.
    simpl in H1, H2. unfold alloc in H1, H2.
    injection H1 as -> ->. injection H2 as -> ->.
    destruct (alloc_twice
      (JavaClassOrInterface n1 (JavaClassOrInterface_direct_supertypes d)
         (JavaClassOrInterface_constructor d) dict1)
      (JavaClassOrInterface n2 (JavaClassOrInterface_direct_supertypes d)
         (JavaClassOrInterface_constructor d) dict2) h) as (Hne & Ha & Hb).
    split; [exact Hne|]. exists dict1, dict2. split; [exact Ha | exact Hb].
  - intros a b n1 n2 l items x. apply append_shared.
  - intros a b oa ob l items x. apply append_shared_sequence.
  - intros n l. apply alloc_lookup_new.
  - intros l. apply alloc_lookup_new.
  - intros n l t. apply alloc_lookup_new.
  - intros n l c ms a h' [dict Hinit]%JavaClassOrInterface_init_inv.
    simpl in Hinit. eexists _, dict. unfold alloc in Hinit. injection Hinit as -> ->.
    apply (alloc_lookup_new (JavaClassOrInterface n l _ dict) h).
  - intros n ds c ms a h' [dict Hinit]%JavaClassOrInterface_init_inv.
    simpl in Hinit. eexists _, dict. unfold alloc in Hinit. injection Hinit as -> ->.
    apply (alloc_lookup_new (JavaClassOrInterface n _ c dict) h).
Qed.

Lemma default_sequence_is_shared_witness :
  let '(d, h) := loaded in
  let r1 := JavaType_init d "T" None h in
  let r2 := JavaType_init d "T" None r1.2 in
  r1.1 ≠ r2.1 ∧
  r2.2 !! r1.1 = Some (JavaType "T" (JavaType_direct_supertypes d)) ∧
  r2.2 !! r2.1 = Some (JavaType "T" (JavaType_direct_supertypes d)).
Proof.
  exact (proj1 (default_sequence_is_shared loaded.1 loaded.2) "T" "T").
Defined.

End TypesFacts.

Module ExpressionsFacts.
Import Expressions.

Section Checker.
Context {JavaType : Type} `{JavaTypes JavaType}.

Abbreviation JavaExpression := (Expressions.JavaExpression JavaType).

(** A node that checks has a static type. *)
Lemma check_types_static_type (e : JavaExpression) :
  check_types e = Ok tt → ∃ t, static_type e = Ok t.
Proof.
  induction e as [n t|v t| |lhs IHl rhs IHr|receiver IH m args|T args]; simpl;
    try (intros _; eauto; fail); try done.
  - destruct (check_types lhs) as [[]|]; simpl; [|done]. intros _. by apply IHl.
  - destruct (check_types receiver) as [[]|]; simpl; [|done].
    destruct IH as [t ->]; [done|]. simpl.
    destruct (is_object_type t); simpl; [|done].
    destruct (method_named t m) as [meth|[]]; simpl; try done. eauto.
Qed.

(** *** [static_type] *)

(** C1, as the code has it: [static_type()] is computed from the node's own
    fields and its children's static types only (never from the arguments of
    a call or the right side of an assignment, and never by checking). It
    returns on variable, literal and null-literal nodes and on every node
    whose [check_types()] succeeds; an assignment has the static type, or
    the exception, of its left side. On a method-call node it validates the
    receiver: an exception of the receiver's [static_type()] is passed on,
    a receiver type that is not an object type raises a type error
    "Cannot call method <m> on primitive type <T>", a method name that does
    not resolve raises a type error with the message of the lookup, and
    otherwise the result is the return type of the resolved method. *)
Theorem static_type_validates_receiver (receiver : JavaExpression) (m : string)
    (args : list JavaExpression) :
  (∀ n t, static_type (JavaVariable n t) = Ok t) ∧
  (∀ v t, static_type (JavaLiteral v t) = Ok t) ∧
  static_type JavaNullLiteral = Ok NULL ∧
  (∀ lhs rhs, static_type (JavaAssignment lhs rhs) = static_type lhs) ∧
  (∀ args', static_type (JavaMethodCall receiver m args) =
            static_type (JavaMethodCall receiver m args')) ∧
  (∀ e, static_type receiver = Raise e →
        static_type (JavaMethodCall receiver m args) = Raise e) ∧
  (∀ t, static_type receiver = Ok t → is_object_type t = false →
        static_type (JavaMethodCall receiver m args) =
        Raise (JavaTypeError ("Cannot call method " +:+ m +:+ " on primitive type " +:+
                              name t))) ∧
  (∀ t msg, static_type receiver = Ok t → is_object_type t = true →
        method_named t m = Raise (NoSuchJavaMethod msg) →
        static_type (JavaMethodCall receiver m args) = Raise (JavaTypeError msg)) ∧
  (∀ t method, static_type receiver = Ok t → is_object_type t = true →
        method_named t m = Ok method →
        static_type (JavaMethodCall receiver m args) = Ok (return_type method)) ∧
  (∀ e : JavaExpression, check_types e = Ok tt → ∃ t, static_type e = Ok t).
Proof.
  repeat split; try done.
  - intros e He. simpl. by rewrite He.
  - intros t Ht Hobj. simpl. by rewrite Ht; simpl; rewrite Hobj.
  - intros t msg Ht Hobj Hm. simpl. by rewrite Ht; simpl; rewrite Hobj, Hm.
  - intros t method Ht Hobj Hm. simpl. by rewrite Ht; simpl; rewrite Hobj, Hm.
  - apply check_types_static_type.
Qed.

(** C2: a constructor-call node has neither operation of its own: both
    [static_type()] and [check_types()] are the ones inherited from
    [JavaExpression] and raise [NotImplementedError], whatever the
    instantiated type and the arguments are. *)
Theorem constructor_call_not_implemented (T : JavaType) (args : list JavaExpression) :
  static_type (JavaConstructorCall T args) =
    Raise (NotImplementedError "JavaConstructorCall must override static_type()") ∧
  check_types (JavaConstructorCall T args) =
    Raise (NotImplementedError "JavaConstructorCall must override check_types()").
Proof. split; reflexivity. Qed.

(** *** [check_types] of an assignment *)

Lemma string_app_assoc (a b c : string) : (a +:+ b) +:+ c = a +:+ (b +:+ c).
Proof.
  induction a as [|x a IH]; [done|].
  change (String x ((a +:+ b) +:+ c) = String x (a +:+ (b +:+ c))). by rewrite IH.
Qed.

Lemma string_app_nil_r (a : string) : a +:+ "" = a.
Proof.
  induction a as [|x a IH]; [done|].
  change (String x (a +:+ "") = String x a). by rewrite IH.
Qed.

(** C5: for an assignment whose two children pass [check_types()], both
    children have a static type, and [check_types()] of the assignment
    raises a type-mismatch error exactly when the right side's static type
    is not a subtype of the left side's (and returns otherwise). When the
    left side is a variable the message is
    "Cannot assign <rhs type> to variable <name> of type <lhs type>", which
    contains the variable's name and both type names; otherwise it is
    "Cannot assign <rhs type> to <lhs type>". *)
Theorem assignment_check_types (lhs rhs : JavaExpression) :
  check_types lhs = Ok tt → check_types rhs = Ok tt →
  ∃ lhs_type rhs_type,
    static_type lhs = Ok lhs_type ∧ static_type rhs = Ok rhs_type ∧
    ((∃ msg, check_types (JavaAssignment lhs rhs) = Raise (JavaTypeMismatchError msg)) ↔
     is_subtype_of rhs_type lhs_type = false) ∧
    (is_subtype_of rhs_type lhs_type = true → check_types (JavaAssignment lhs rhs) = Ok tt) ∧
    (is_subtype_of rhs_type lhs_type = false →
     ∃ msg, check_types (JavaAssignment lhs rhs) = Raise (JavaTypeMismatchError msg) ∧
       match lhs with
       | JavaVariable variable_name _ =>
         msg = "Cannot assign " +:+ name rhs_type +:+ " to variable " +:+ variable_name +:+
               " of type " +:+ name lhs_type ∧
         occurs_in variable_name msg ∧ occurs_in (name lhs_type) msg ∧
         occurs_in (name rhs_type) msg
       | _ =>
         msg = "Cannot assign " +:+ name rhs_type +:+ " to " +:+ name lhs_type
       end).
Proof.
  intros Hl Hr.
  destruct (check_types_static_type lhs Hl) as [lt Hlt].
  destruct (check_types_static_type rhs Hr) as [rt Hrt].
  exists lt, rt. split; [done|]. split; [done|].
  assert (check_types (JavaAssignment lhs rhs) =
          if negb (is_subtype_of rt lt)
          then Raise (JavaTypeMismatchError (assignment_message lhs (name lt) (name rt)))
          else Ok tt) as ->.
  { simpl. rewrite Hl, Hr. simpl. rewrite Hlt. simpl. rewrite Hrt. done. }
  destruct (is_subtype_of rt lt); simpl; split; [|split| |split]; try done.
  - split; [by intros [msg ?] | done].
  - split; [done | eauto].
  - intros _. eexists. split; [done|].
    destruct lhs; try done. simpl. split; [done|]. split; [|split].
    + exists ("Cannot assign " +:+ name rt +:+ " to variable "), (" of type " +:+ name lt).
      by rewrite !string_app_assoc.
    + exists ("Cannot assign " +:+ name rt +:+ " to variable " +:+ name0 +:+ " of type "), "".
      by rewrite string_app_nil_r, !string_app_assoc.
    + exists "Cannot assign ", (" to variable " +:+ name0 +:+ " of type " +:+ name lt).
      done.
Qed.

(** *** [check_types] of a method call *)

Lemma check_args_prefix mismatch pre rest params_pre params_rest :
  Forall2 argument_passes pre params_pre →
  check_args check_types mismatch (pre ++ rest) (params_pre ++ params_rest) =
  check_args check_types mismatch rest params_rest.
Proof.
  induction 1 as [|a p pre params_pre (Hc & ta & Hta & Hsub) _ IH]; simpl; [done|].
  rewrite Hc. simpl. rewrite Hta. simpl. by rewrite Hsub.
Qed.

Lemma check_args_first_error mismatch arg rest params e :
  length params = length (arg :: rest) → check_types arg = Raise e →
  check_args check_types mismatch (arg :: rest) params = Raise e.
Proof. destruct params as [|p params]; simpl; [done|]. intros _ ->. done. Qed.

Lemma check_args_reports mismatch pre arg post params e :
  length params = length (pre ++ arg :: post) →
  Forall2 argument_passes pre (take (length pre) params) →
  check_types arg = Raise e →
  check_args check_types mismatch (pre ++ arg :: post) params = Raise e.
Proof.
  intros Hlen Hpre He.
  rewrite <- (take_drop (length pre) params).
  rewrite check_args_prefix by done.
  apply check_args_first_error; [|done].
  rewrite length_drop, Hlen, length_app. simpl. lia.
Qed.


End Checker.

(** *** The checker on the graphics types *)

Import Graphics.

Example bad_assignment_fails :
  check_types bad_assignment =
  Raise (JavaTypeMismatchError "Cannot assign int to variable r of type Rectangle").
Proof. reflexivity. Qed.

(** C1, the counterexample: on a method call whose receiver has the
    primitive type [int], and on one whose method name does not resolve,
    [static_type()] raises a type error. *)
Lemma static_type_raises :
  static_type (JavaMethodCall (JavaVariable "x" INT) "move" []) =
    Raise (JavaTypeError "Cannot call method move on primitive type int") ∧
  static_type (JavaMethodCall (JavaVariable "g" GRAPHICS) "fly" []) =
    Raise (JavaTypeError "Graphics has no method named fly").
Proof. split; reflexivity. Qed.

Lemma static_type_validates_receiver_witness :
  ∃ t, static_type (JavaMethodCall (JavaVariable "g" GRAPHICS) "move"
                      [JavaLiteral "r" RECTANGLE; JavaLiteral "1" INT]) = Ok t.
Proof.
  refine (proj2 (proj2 (proj2 (proj2 (proj2 (proj2 (proj2 (proj2 (proj2
    (static_type_validates_receiver JavaNullLiteral "" []))))))))) _ _).
  reflexivity.
Defined.



Lemma assignment_check_types_witness :
  ∃ lhs_type rhs_type,
    static_type (JavaVariable "g" GRAPHICS) = Ok lhs_type ∧
    static_type (JavaLiteral "1" INT) = Ok rhs_type ∧
    ((∃ msg, check_types (JavaAssignment (JavaVariable "g" GRAPHICS) (JavaLiteral "1" INT)) =
             Raise (JavaTypeMismatchError msg)) ↔
     is_subtype_of rhs_type lhs_type = false) ∧
    (is_subtype_of rhs_type lhs_type = true →
     check_types (JavaAssignment (JavaVariable "g" GRAPHICS) (JavaLiteral "1" INT)) = Ok tt) ∧
    (is_subtype_of rhs_type lhs_type = false →
     ∃ msg, check_types (JavaAssignment (JavaVariable "g" GRAPHICS) (JavaLiteral "1" INT)) =
            Raise (JavaTypeMismatchError msg) ∧
       msg = "Cannot assign " +:+ name rhs_type +:+ " to variable " +:+ "g" +:+
             " of type " +:+ name lhs_type ∧
       occurs_in "g" msg ∧ occurs_in (name lhs_type) msg ∧ occurs_in (name rhs_type) msg).
Proof.
  apply (assignment_check_types (JavaVariable "g" GRAPHICS) (JavaLiteral "1" INT));
    reflexivity.
Defined.

End ExpressionsFacts.

Module TypesMore.
Import Types TypeGraph HeapInvariants Fixtures TypesFacts.

(** *** The subtype relation as a relation on the graph *)

(** X1: on a well-formed acyclic graph [A.is_subtype_of(B)] is true exactly
    when [B] is [A] or is reached from [A] through direct supertypes ("a
    direct or indirect subtype"), and false exactly when it is not. *)
Theorem is_subtype_of_iff_reachable h A B fuel :
  well_formed h → acyclic h → is_type h A = true → length h < fuel →
  (is_subtype_of h fuel A B = Ret true ↔ reachable h A B) ∧
  (is_subtype_of h fuel A B = Ret false ↔ ¬ reachable h A B).
Proof.
  intros Hwf Hacyc HA Hfuel.
  destruct (is_subtype_of_returns h A B fuel Hwf Hacyc HA Hfuel) as [b Hb].
  split; split.
  - apply is_subtype_of_sound.
  - intros Hr. rewrite Hb. f_equal. by eapply is_subtype_of_complete.
  - intros Hf Hr. by pose proof (is_subtype_of_complete _ _ _ _ _ Hr Hf).
  - intros Hn. destruct b; [|done]. by apply is_subtype_of_sound in Hb.
Qed.

Lemma is_subtype_of_iff_reachable_witness :
  let g := graphics_hierarchy in
  (is_subtype_of (hierarchy_heap g) 18 (rectangle g) (object g) = Ret true ↔
   reachable (hierarchy_heap g) (rectangle g) (object g)) ∧
  (is_subtype_of (hierarchy_heap g) 18 (rectangle g) (object g) = Ret false ↔
   ¬ reachable (hierarchy_heap g) (rectangle g) (object g)).
Proof.
  apply is_subtype_of_iff_reachable.
  - apply graphics_hierarchy_well_formed.
  - apply graphics_hierarchy_acyclic.
  - reflexivity.
  - simpl. lia.
Defined.

(** X2: on an acyclic graph the subtype test is antisymmetric: two types
    that are subtypes of one another are the same object. *)
Theorem is_subtype_of_antisymmetric h A B n m :
  acyclic h →
  is_subtype_of h n A B = Ret true → is_subtype_of h m B A = Ret true → A = B.
Proof.
  intros Hacyc HAB%is_subtype_of_sound HBA%is_subtype_of_sound.
  apply rtc_tc in HAB as [?|HAB]; [done|].
  destruct (Hacyc A). by eapply tc_rtc_r.
Qed.

Lemma is_subtype_of_antisymmetric_witness :
  let g := graphics_hierarchy in rectangle g = rectangle g.
Proof.
  apply (is_subtype_of_antisymmetric (hierarchy_heap graphics_hierarchy) _ _ 1 1).
  - apply graphics_hierarchy_acyclic.
  - reflexivity.
  - reflexivity.
Defined.

(** X3: transitivity needs no acyclicity: on any heap, once
    [C.is_subtype_of(B)] and [B.is_subtype_of(A)] have answered true within
    budgets [n] and [m], [C.is_subtype_of(A)] answers true within every
    budget from [n + m] on. *)
Theorem is_subtype_of_transitive_any_heap h A B C n m fuel :
  is_subtype_of h n C B = Ret true → is_subtype_of h m B A = Ret true →
  n + m ≤ fuel → is_subtype_of h fuel C A = Ret true.
Proof.
  intros HCB HBA Hfuel.
  eapply is_subtype_of_mono_ret; [exact Hfuel|]. by eapply is_subtype_of_trans.
Qed.

Lemma is_subtype_of_transitive_any_heap_witness :
  is_subtype_of appended_heap 3 8 7 = Ret true.
Proof.
  apply (is_subtype_of_transitive_any_heap appended_heap 7 7 8 2 1).
  - reflexivity.
  - reflexivity.
  - simpl. lia.
Defined.

(** X4: a type is a subtype of each of its direct supertypes, and on an
    acyclic graph never the other way round, in both spellings of the test
    ([is_subtype_of] and [is_supertype_of]). *)
Theorem direct_supertype_is_supertype h t s ts fuel :
  well_formed h → acyclic h → is_type h t = true →
  supertypes h t = Some ts → s ∈ ts → length h < fuel →
  is_subtype_of h fuel t s = Ret true ∧ is_supertype_of h fuel s t = Ret true ∧
  is_subtype_of h fuel s t = Ret false ∧ is_supertype_of h fuel t s = Ret false.
Proof.
  intros Hwf Hacyc Ht Hts Hs Hfuel.
  assert (edge h t s) as Hedge by (by exists ts).
  assert (is_type h s = true) as Hst.
  { destruct (Hwf t Ht) as (ts' & Hts' & Hall). rewrite Hts in Hts'.
    injection Hts' as <-. by apply Hall. }
  assert (is_subtype_of h fuel t s = Ret true) as Hsub.
  { destruct (is_subtype_of_returns h t s fuel Hwf Hacyc Ht Hfuel) as [b Hb].
    rewrite Hb. f_equal. eapply is_subtype_of_complete; [|exact Hb]. by apply rtc_once. }
  assert (is_subtype_of h fuel s t = Ret false) as Hsup.
  { destruct (is_subtype_of_returns h s t fuel Hwf Hacyc Hst Hfuel) as [[] Hb]; [|done].
    apply is_subtype_of_sound in Hb. destruct (Hacyc t). by eapply tc_rtc_r; [apply tc_once|]. }
  unfold is_supertype_of.
  destruct (is_type_get_direct_supertypes h s "is_supertype_of" Hst) as [ds1 ->].
  destruct (is_type_get_direct_supertypes h t "is_supertype_of" Ht) as [ds2 ->].
  done.
Qed.

Lemma direct_supertype_is_supertype_witness :
  let g := graphics_hierarchy in
  is_subtype_of (hierarchy_heap g) 18 (rectangle g) (graphics g) = Ret true ∧
  is_supertype_of (hierarchy_heap g) 18 (graphics g) (rectangle g) = Ret true ∧
  is_subtype_of (hierarchy_heap g) 18 (graphics g) (rectangle g) = Ret false ∧
  is_supertype_of (hierarchy_heap g) 18 (rectangle g) (graphics g) = Ret false.
Proof.
  apply (direct_supertype_is_supertype _ _ _ [10]).
  - apply graphics_hierarchy_well_formed.
  - apply graphics_hierarchy_acyclic.
  - reflexivity.
  - reflexivity.
  - apply list_elem_of_here.
  - simpl. lia.
Defined.

(** X5: on a well-formed heap [is_subtype_of] either returns a boolean or
    exhausts the recursion depth (Python's [RecursionError], as on a cyclic
    graph): at no budget does it end in [AttributeError] or [TypeError]. *)
Theorem is_subtype_of_returns_or_recurses h self other fuel :
  well_formed h → is_type h self = true →
  (∃ b, is_subtype_of h fuel self other = Ret b) ∨
  is_subtype_of h fuel self other = OutOfFuel.
Proof.
  intros Hwf Hself.
  pose proof (is_subtype_of_no_raise h other Hwf fuel self) as Hraise.
  destruct (is_subtype_of h fuel self other) as [b|e|]; [eauto | | by right].
  by destruct (Hraise e Hself).
Qed.

Lemma appended_well_formed : well_formed appended_heap.
Proof. apply all_types_ok_well_formed. reflexivity. Qed.

Lemma is_subtype_of_returns_or_recurses_witness :
  ((∃ b, is_subtype_of appended_heap 5 8 7 = Ret b) ∨
   is_subtype_of appended_heap 5 8 7 = OutOfFuel) ∧
  ((∃ b, is_subtype_of appended_heap 5 7 8 = Ret b) ∨
   is_subtype_of appended_heap 5 7 8 = OutOfFuel).
Proof.
  split; apply is_subtype_of_returns_or_recurses;
    first [apply appended_well_formed | reflexivity].
Defined.

(** *** Method resolution *)

Lemma first_resolved_ret (f : loc → res loc) fail ts m :
  first_resolved f fail ts = Ret m → ∃ t, t ∈ ts ∧ f t = Ret m.
Proof.
  induction ts as [|t ts IH]; simpl; [done|].
  destruct (f t) as [m'|[]|] eqn:Ht; try done.
  - intros [= ->]. exists t. split; [apply list_elem_of_here | done].
  - intros (t' & Ht' & Hm)%IH. exists t'. split; [by apply list_elem_of_further | done].
Qed.

(** X6: whatever the heap, a method that [method_named(name)] returns is
    held under [name] in the own mapping of the receiver or of one of its
    ancestors: the search never makes up a method and never returns one
    stored under another name. *)
Theorem method_named_declared h fuel T name m :
  method_named h fuel T name = Ret m →
  ∃ s, reachable h T s ∧ own_method h s name = Some m.
Proof.
  revert T. induction fuel as [|f IH]; intros T; simpl; [done|].
  destruct (h !! T) as [[| | |n ds c ms|]|] eqn:HT; try done.
  destruct (ms !! name) as [m'|] eqn:Hm.
  - intros [= ->]. exists T. split; [apply rtc_refl|]. unfold own_method. by rewrite HT.
  - destruct (iter h ds) as [ts| |] eqn:Hts; simpl; try done.
    intros (t & Ht & Hr)%first_resolved_ret.
    destruct (IH t Hr) as (s & Hreach & Hown). exists s. split; [|done].
    eapply rtc_l; [|done]. exists ts. split; [|done].
    apply (supertypes_iter h T "" ds); [|done].
    unfold get_direct_supertypes. by rewrite HT.
Qed.

Lemma method_named_declared_witness :
  let g := diamond_classes in
  ∃ s, reachable (diamond_heap g) (widget g) s ∧
       own_method (diamond_heap g) s "draw" = Some (draw1 g).
Proof.
  apply (method_named_declared (diamond_heap diamond_classes) 18). reflexivity.
Defined.

(** *** Building a class *)

Lemma methods_dict_lookup h post : ∀ acc dict m nm,
  methods_dict h post acc = Ret dict → acc !! nm = Some m →
  (∀ x, x ∈ post → get_name h x ≠ Ret nm) → dict !! nm = Some m.
Proof.
  induction post as [|x post IH]; intros acc dict m nm; simpl.
  - by intros [= ->].
  - destruct (get_name h x) as [nx| |] eqn:Hx; simpl; try done.
    intros Hd Hacc Hpost. eapply IH; [exact Hd| |].
    + rewrite lookup_insert_ne; [done|]. intros ->. by apply (Hpost x), Hx; left.
    + intros y Hy. apply Hpost. by right.
Qed.

Lemma methods_dict_last h pre : ∀ acc dict m post nm,
  methods_dict h (pre ++ m :: post) acc = Ret dict → get_name h m = Ret nm →
  (∀ x, x ∈ post → get_name h x ≠ Ret nm) → dict !! nm = Some m.
Proof.
  induction pre as [|x pre IH]; intros acc dict m post nm; simpl.
  - intros Hd Hm Hpost. rewrite Hm in Hd. simpl in Hd.
    eapply methods_dict_lookup; [exact Hd | apply lookup_insert_eq | done].
  - destruct (get_name h x) as [nx| |]; simpl; try done. apply IH.
Qed.

(** X7: a class finds the methods it was built with. After
    [JavaClassOrInterface(name, ..., methods=ms)], [method_named] on the new
    class returns a method of [ms] under that method's name without looking
    at any supertype, provided no later method of [ms] has the same name:
    of two methods with one name the later one is kept. *)
Theorem class_finds_own_methods d n ds c l h a h' pre m post nm fuel :
  JavaClassOrInterface_init d n ds c (Some l) h = Ret (a, h') →
  iter h l = Ret (pre ++ m :: post) →
  get_name h m = Ret nm →
  (∀ x, x ∈ post → get_name h x ≠ Ret nm) →
  method_named h' (S fuel) a nm = Ret m.
Proof.
  unfold JavaClassOrInterface_init. simpl. intros Hinit Hiter Hm Hpost.
  rewrite Hiter in Hinit. simpl in Hinit.
  destruct (methods_dict h (pre ++ m :: post) ∅) as [dict| |] eqn:Hd; simpl in Hinit;
    try done.
  injection Hinit as <- <-. simpl.
  rewrite list_lookup_middle by done.
  by rewrite (methods_dict_last h pre ∅ dict m post nm Hd Hm Hpost).
Qed.

(** [[
draw1 = JavaMethod("draw"); draw2 = JavaMethod("draw")
shape = JavaClassOrInterface("Shape", [], methods=[draw1, draw2])
]] *)
Lemma class_finds_own_methods_witness :
  let h := [PyList []; JavaMethod "draw" 0 None; JavaMethod "draw" 0 None; PyList [1; 2]] in
  method_named (h ++ [JavaClassOrInterface "Shape" 0 0 {[ "draw" := 2 ]}]) 1 4 "draw" = Ret 2.
Proof.
  apply (class_finds_own_methods loaded.1 "Shape" (Some 0) (Some 0) 3
           [PyList []; JavaMethod "draw" 0 None; JavaMethod "draw" 0 None; PyList [1; 2]]
           _ _ [1] 2 [] "draw" 0).
  - reflexivity.
  - reflexivity.
  - reflexivity.
  - intros x Hx. by apply elem_of_nil in Hx.
Defined.

Lemma methods_dict_raise h pre : ∀ acc x post e,
  Forall (λ y, ∃ ny, get_name h y = Ret ny) pre → get_name h x = Raise e →
  methods_dict h (pre ++ x :: post) acc = Raise e.
Proof.
  induction pre as [|y pre IH]; intros acc x post e Hpre Hx; simpl.
  - by rewrite Hx.
  - apply Forall_cons in Hpre as [[ny ->] Hpre]. simpl. by apply IH.
Qed.

(** X8: a class cannot be built from a methods list that holds an object
    without a [name] (a list, a constructor): the construction raises
    [AttributeError] for the first such object. *)
Theorem class_of_nameless_method d n ds c l h pre x post o :
  iter h l = Ret (pre ++ x :: post) →
  Forall (λ y, ∃ ny, get_name h y = Ret ny) pre →
  h !! x = Some o → (∃ items, o = PyList items) ∨ (∃ ts, o = JavaConstructor ts) →
  JavaClassOrInterface_init d n ds c (Some l) h =
  Raise (AttributeError ("'" +:+ class_name o +:+ "' object has no attribute 'name'")).
Proof.
  intros Hiter Hpre Hx Ho. unfold JavaClassOrInterface_init. simpl. rewrite Hiter. simpl.
  rewrite (methods_dict_raise h pre ∅ x post (no_attribute o "name")); [done..|].
  unfold get_name. rewrite Hx. by destruct Ho as [[? ->]|[? ->]].
Qed.

Lemma class_of_nameless_method_witness :
  JavaClassOrInterface_init loaded.1 "Shape" None None (Some 2)
    [PyList []; JavaMethod "draw" 0 None; PyList [1; 0]] =
  Raise (AttributeError "'list' object has no attribute 'name'").
Proof.
  apply (class_of_nameless_method _ _ _ _ _ _ [1] 0 [] (PyList [])).
  - reflexivity.
  - constructor; [by exists "draw" | constructor].
  - reflexivity.
  - left. by exists [].
Defined.

(** *** Construction keeps the graph acyclic *)

Lemma closedb_closed h : closedb h = true → closed h.
Proof.
  unfold closedb. rewrite forallb_forall. intros Hall l o Hl r Hr.
  assert (In o h) as Ho by (apply list_elem_of_In; by eapply list_elem_of_lookup_2).
  specialize (Hall o Ho). rewrite forallb_forall in Hall.
  apply Nat.ltb_lt, Hall. by apply list_elem_of_In.
Qed.

Lemma closed_alloc o h :
  closed h → (∀ r, r ∈ references o → r < length h) → closed (alloc o h).2.
Proof.
  intros Hcl Ho l o' Hl r Hr. unfold alloc in *. simpl in *. rewrite length_app. simpl.
  apply lookup_app_Some in Hl as [Hl|[_ Hl]].
  - pose proof (Hcl l o' Hl r Hr). lia.
  - apply list_lookup_singleton_Some in Hl as [_ <-]. pose proof (Ho r Hr). lia.
Qed.

Lemma supertypes_alloc_old o h t :
  closed h → t < length h → supertypes (alloc o h).2 t = supertypes h t.
Proof.
  intros Hcl Ht. unfold supertypes, alloc. simpl.
  rewrite lookup_app_l by done.
  destruct (h !! t) as [[| |n ds|n ds c ms|]|] eqn:E; try done;
    (rewrite lookup_app_l; [done|]); apply (Hcl t _ E); simpl; set_solver.
Qed.

Lemma supertypes_closed h t ts s :
  closed h → supertypes h t = Some ts → s ∈ ts → s < length h.
Proof.
  intros Hcl. unfold supertypes.
  destruct (h !! t) as [[| |n ds|n ds c ms|]|]; try done;
    destruct (h !! ds) as [[items| | | |]|] eqn:E; try done;
    intros [= ->] Hs; by apply (Hcl ds _ E).
Qed.

Lemma edge_alloc_target o h t s :
  closed h → (∀ r, r ∈ references o → r < length h) →
  edge (alloc o h).2 t s → s < length h.
Proof.
  intros Hcl Ho (ts & Hts & Hs).
  pose proof (supertypes_closed _ _ _ _ (closed_alloc o h Hcl Ho) Hts Hs) as Hlt.
  destruct (decide (t < length h)) as [Ht|Ht].
  - rewrite supertypes_alloc_old in Hts by done. by eapply supertypes_closed.
  - pose proof (supertypes_lt _ _ _ Hts) as Ht'. unfold alloc in *. simpl in *.
    rewrite length_app in Ht'. simpl in Ht'. assert (t = length h) as -> by lia.
    unfold supertypes in Hts. rewrite list_lookup_middle in Hts by done.
    destruct o as [| |n ds|n ds c ms|]; try done;
      (assert (ds < length h) as Hds by (apply Ho; simpl; set_solver));
      rewrite lookup_app_l in Hts by done;
      destruct (h !! ds) as [[items| | | |]|] eqn:E; try done;
      injection Hts as <-; by apply (Hcl ds _ E).
Qed.

Lemma acyclic_alloc o h :
  closed h → (∀ r, r ∈ references o → r < length h) → acyclic h → acyclic (alloc o h).2.
Proof.
  intros Hcl Ho Hacyc.
  assert (∀ a b, tc (edge (alloc o h).2) a b → b < length h) as Htarget.
  { induction 1 as [a b Hab|a b c _ _ IH]; [by eapply edge_alloc_target | done]. }
  assert (∀ a b, tc (edge (alloc o h).2) a b → a < length h → tc (edge h) a b) as Hold.
  { induction 1 as [a b (ts & Hts & Hb)|a b c (ts & Hts & Hb) Hbc IH]; intros Ha;
      rewrite supertypes_alloc_old in Hts by done.
    - apply tc_once. by exists ts.
    - eapply tc_l; [by exists ts|]. apply IH. by eapply supertypes_closed. }
  intros t Ht. apply (Hacyc t), Hold; [done|]. by apply (Htarget t).
Qed.

Lemma methods_dict_values (P : loc → Prop) h ms : ∀ acc dict,
  methods_dict h ms acc = Ret dict →
  (∀ k v, acc !! k = Some v → P v) → (∀ x, x ∈ ms → P x) →
  ∀ k v, dict !! k = Some v → P v.
Proof.
  induction ms as [|m ms IH]; intros acc dict; simpl.
  - intros [= ->] Hacc _. done.
  - destruct (get_name h m) as [n| |]; simpl; try done.
    intros Hd Hacc Hms. eapply IH; [exact Hd| |].
    + intros k v [[_ <-]|[_ Hk]]%lookup_insert_Some; [apply Hms; by left | by eapply Hacc].
    + intros x Hx. apply Hms. by right.
Qed.

(** X9: constructing objects never closes a cycle. On a heap without
    dangling references that holds the module's default objects, every
    constructor ([JavaType], [JavaClassOrInterface], [JavaMethod],
    [JavaConstructor]), called with arguments that are objects of the heap,
    leaves the heap without dangling references and leaves an acyclic
    supertype graph acyclic: only a later mutation of a supertype list can
    break the precondition of [is_subtype_of]. *)
Theorem construction_keeps_acyclic d h :
  closed h → defaults_in d h → acyclic h →
  (∀ n ds, argument_in ds h →
     let r := JavaType_init d n ds h in
     closed r.2 ∧ defaults_in d r.2 ∧ acyclic r.2) ∧
  (∀ n ds c ms a h', argument_in ds h → argument_in c h → argument_in ms h →
     JavaClassOrInterface_init d n ds c ms h = Ret (a, h') →
     closed h' ∧ defaults_in d h' ∧ acyclic h') ∧
  (∀ n args rt, argument_in args h → argument_in rt h →
     let r := JavaMethod_init d n args rt h in
     closed r.2 ∧ defaults_in d r.2 ∧ acyclic r.2) ∧
  (∀ args, argument_in args h →
     let r := JavaConstructor_init d args h in
     closed r.2 ∧ defaults_in d r.2 ∧ acyclic r.2).
Proof.
  intros Hcl Hd Hacyc.
  assert (∀ o, (∀ r, r ∈ references o → r < length h) →
               closed (alloc o h).2 ∧ defaults_in d (alloc o h).2 ∧ acyclic (alloc o h).2)
    as Halloc.
  { intros o Ho. split; [by apply closed_alloc|]. split; [|by apply acyclic_alloc].
    unfold defaults_in, alloc in *. simpl. rewrite length_app. simpl. lia. }
  assert (∀ (a : option loc) dflt, argument_in a h → dflt < length h →
            default dflt a < length h) as Harg.
  { intros [l|] dflt Ha Hdf; simpl; [by apply Ha | done]. }
  destruct Hd as (Hd1 & Hd2 & Hd3 & Hd4 & Hd5 & Hd6).
  split; [|split; [|split]].
  - intros n ds Hds. apply Halloc. intros r [->|[]%elem_of_nil]%elem_of_cons.
    by apply Harg.
  - intros n ds c ms a h' Hds Hc Hms Hinit.
    unfold JavaClassOrInterface_init in Hinit.
    pose proof (Harg ms _ Hms Hd5) as Hl.
    destruct (iter h (default (JavaClassOrInterface_methods d) ms)) as [items| |] eqn:Hit;
      simpl in Hinit; try done.
    destruct (methods_dict h items ∅) as [dict| |] eqn:Hdict; simpl in Hinit; try done.
    injection Hinit as <- <-.
    apply (Halloc (JavaClassOrInterface n _ _ dict)). simpl.
    intros r [->|[->|Hr]%elem_of_cons]%elem_of_cons; [by apply Harg..|].
    apply list_elem_of_fmap in Hr as ([k v] & -> & Hkv). simpl.
    apply elem_of_map_to_list in Hkv.
    apply (methods_dict_values (λ x, x < length h) h items ∅ dict Hdict) with k; [done| |done].
    intros x Hx. unfold iter in Hit.
    destruct (h !! default (JavaClassOrInterface_methods d) ms) as [[its| | | |]|] eqn:E;
      try done.
    injection Hit as ->. by apply (Hcl _ _ E).
  - intros n args rt Hargs Hrt. apply Halloc. simpl.
    intros r [->|Hr]%elem_of_cons; [by apply Harg|].
    destruct rt as [l|]; simpl in Hr; [|by apply elem_of_nil in Hr].
    apply list_elem_of_singleton in Hr as ->. by apply Hrt.
  - intros args Hargs. apply Halloc. intros r [->|[]%elem_of_nil]%elem_of_cons.
    by apply Harg.
Qed.

(** [square = JavaType("Square", [rectangle])] on the graphics hierarchy,
    after the list display [[rectangle]] has been built. *)
Lemma construction_keeps_acyclic_witness :
  let g := graphics_hierarchy in
  let '(l, h) := new_list [rectangle g] (hierarchy_heap g) in
  let r := JavaType_init loaded.1 "Square" (Some l) h in
  supertypes r.2 r.1 = Some [rectangle g] ∧
  closed r.2 ∧ defaults_in loaded.1 r.2 ∧ acyclic r.2.
Proof.
  split; [reflexivity|].
  refine (proj1 (construction_keeps_acyclic loaded.1
                   (new_list [12] (hierarchy_heap graphics_hierarchy)).2 _ _ _)
            "Square" (Some 17) _).
  - apply closedb_closed. reflexivity.
  - unfold defaults_in. simpl. lia.
  - apply older_supertypes_acyclic. reflexivity.
  - intros l [= <-]. simpl. lia.
Defined.

(** *** New objects leave old answers alone *)

Lemma any_ext {A} (f g : A → res bool) l :
  (∀ x, x ∈ l → f x = g x) → any f l = any g l.
Proof.
  induction l as [|a l IH]; simpl; intros Hfg; [done|].
  rewrite <- (Hfg a) by (by left). rewrite IH; [done|]. intros x Hx. apply Hfg. by right.
Qed.

Lemma first_resolved_ext (f g : loc → res loc) fail l :
  (∀ x, x ∈ l → f x = g x) → first_resolved f fail l = first_resolved g fail l.
Proof.
  induction l as [|a l IH]; simpl; intros Hfg; [done|].
  rewrite <- (Hfg a) by (by left). rewrite IH; [done|]. intros x Hx. apply Hfg. by right.
Qed.

Lemma iter_closed h l ts x : closed h → iter h l = Ret ts → x ∈ ts → x < length h.
Proof.
  intros Hcl. unfold iter. destruct (h !! l) as [[items| | | |]|] eqn:E; try done.
  intros [= ->] Hx. by apply (Hcl l _ E).
Qed.

Lemma is_subtype_of_alloc o h other fuel : ∀ t,
  closed h → t < length h →
  is_subtype_of (alloc o h).2 fuel t other = is_subtype_of h fuel t other.
Proof.
  induction fuel as [|f IH]; intros t Hcl Ht; simpl; [done|].
  assert (get_direct_supertypes (h ++ [o]) t "is_subtype_of" =
          get_direct_supertypes h t "is_subtype_of") as ->
    by (unfold get_direct_supertypes; by rewrite lookup_app_l).
  destruct (get_direct_supertypes h t "is_subtype_of") as [ds| |] eqn:Hds; simpl; try done.
  case_bool_decide; [done|].
  assert (ds < length h) as Hlt.
  { unfold get_direct_supertypes in Hds.
    destruct (h !! t) as [[]|] eqn:E; simplify_eq; apply (Hcl t _ E); simpl; set_solver. }
  assert (iter (h ++ [o]) ds = iter h ds) as ->
    by (unfold iter; by rewrite lookup_app_l).
  destruct (iter h ds) as [ts| |] eqn:Hts; simpl; try done.
  apply any_ext. intros x Hx. apply IH; [done|]. by eapply iter_closed.
Qed.

Lemma method_named_alloc o h name fuel : ∀ t,
  closed h → t < length h →
  method_named (alloc o h).2 fuel t name = method_named h fuel t name.
Proof.
  induction fuel as [|f IH]; intros t Hcl Ht; simpl; [done|].
  rewrite lookup_app_l by done.
  destruct (h !! t) as [[| | |n ds c ms|]|] eqn:E; simpl; try done.
  destruct (ms !! name); [done|].
  assert (ds < length h) as Hds by (apply (Hcl t _ E); simpl; set_solver).
  unfold iter. rewrite lookup_app_l by done.
  destruct (h !! ds) as [[items| | | |]|] eqn:El; simpl; try done.
  apply first_resolved_ext. intros x Hx. apply IH; [done|]. by apply (Hcl ds _ El).
Qed.

(** X10: constructing a new type changes no answer about the types that
    were there: on a heap without dangling references,
    [t.is_subtype_of(other)] and [t.method_named(name)] for an existing [t]
    give after [JavaType(n, ds)] what they gave before, at every budget,
    exceptions included. *)
Theorem construction_preserves_answers d n ds h t :
  closed h → t < length h →
  let h' := (JavaType_init d n ds h).2 in
  (∀ fuel other, is_subtype_of h' fuel t other = is_subtype_of h fuel t other) ∧
  (∀ fuel name, method_named h' fuel t name = method_named h fuel t name).
Proof.
  intros Hcl Ht. split.
  - intros fuel other. by apply is_subtype_of_alloc.
  - intros fuel name. by apply method_named_alloc.
Qed.

Lemma construction_preserves_answers_witness :
  let g := graphics_hierarchy in
  let h' := (JavaType_init loaded.1 "Square" (Some 11) (hierarchy_heap g)).2 in
  (∀ fuel other, is_subtype_of h' fuel (rectangle g) other =
                 is_subtype_of (hierarchy_heap g) fuel (rectangle g) other) ∧
  (∀ fuel name, method_named h' fuel (rectangle g) name =
                method_named (hierarchy_heap g) fuel (rectangle g) name).
Proof.
  apply construction_preserves_answers.
  - apply closedb_closed. reflexivity.
  - simpl. lia.
Defined.

End TypesMore.

Module ExpressionsMore.
Import Expressions ExpressionShape ExpressionsFacts.

Section Checker.
Context {JavaType : Type} `{JavaTypes JavaType}.

Abbreviation JavaExpression := (Expressions.JavaExpression JavaType).

(** Induction that also reaches the arguments of calls. *)
Lemma JavaExpression_nested_ind (P : JavaExpression → Prop) :
  (∀ n t, P (JavaVariable n t)) →
  (∀ v t, P (JavaLiteral v t)) →
  P JavaNullLiteral →
  (∀ lhs rhs, P lhs → P rhs → P (JavaAssignment lhs rhs)) →
  (∀ receiver m args, P receiver → Forall P args → P (JavaMethodCall receiver m args)) →
  (∀ T args, Forall P args → P (JavaConstructorCall T args)) →
  ∀ e, P e.
Proof.
  intros Hvar Hlit Hnull Hassign Hcall Hnew.
  fix IH 1. intros [n t|v t| |lhs rhs|receiver m args|T args].
  - apply Hvar.
  - apply Hlit.
  - apply Hnull.
  - apply Hassign; apply IH.
  - apply Hcall; [apply IH|]. induction args as [|a args IHargs]; constructor; [apply IH | exact IHargs].
  - apply Hnew. induction args as [|a args IHargs]; constructor; [apply IH | exact IHargs].
Qed.

(** *** The argument loop *)

Lemma check_args_passes mismatch args : ∀ params,
  Forall2 argument_passes args params →
  check_args check_types mismatch args params = Ok tt.
Proof.
  intros params Hall. rewrite <- (app_nil_r args), <- (app_nil_r params).
  by rewrite check_args_prefix.
Qed.

Lemma check_args_ok mismatch args : ∀ params,
  mismatch ≠ Ok tt → length args = length params →
  check_args check_types mismatch args params = Ok tt →
  Forall2 argument_passes args params.
Proof.
  intros params Hmm. revert params.
  induction args as [|a args IH]; intros [|p params]; simpl.
  - intros _ _. constructor.
  - done.
  - done.
  - intros [= Hlen].
    destruct (check_types a) as [[]|] eqn:Hc; simpl; [|done].
    destruct (static_type a) as [ta|] eqn:Hta; simpl; [|done].
    destruct (is_subtype_of ta p) eqn:Hsub; simpl; [|done].
    intros Hrest. constructor; [|by apply IH]. split; [done|]. by exists ta.
Qed.

Lemma method_call_checks (receiver : JavaExpression) (m : string)
    (args : list JavaExpression) :
  check_types (JavaMethodCall receiver m args) = Ok tt ↔
  check_types receiver = Ok tt ∧
  ∃ t method,
    static_type receiver = Ok t ∧ is_object_type t = true ∧
    method_named t m = Ok method ∧
    Forall2 argument_passes args (parameter_types method) ∧
    static_type (JavaMethodCall receiver m args) = Ok (return_type method).
Proof.
  simpl. split.
  - destruct (check_types receiver) as [[]|]; simpl; [|done].
    destruct (static_type receiver) as [t|] eqn:Ht; simpl; [|done].
    destruct (is_object_type t) eqn:Hobj; simpl; [|done].
    destruct (method_named t m) as [method|[]] eqn:Hm; simpl; try done.
    destruct (length (parameter_types method) =? length args) eqn:Hlen; simpl; [|done].
    apply Nat.eqb_eq in Hlen. intros Hargs. split; [done|]. exists t, method.
    split; [done|]. split; [done|]. split; [done|]. split; [|done].
    eapply check_args_ok; [|done|exact Hargs].
    by destruct (comprehension _ args).
  - intros (Hc & t & method & Ht & Hobj & Hm & Hargs & _).
    rewrite Hc. simpl. rewrite Ht. simpl. rewrite Hobj, Hm. simpl.
    rewrite (Forall2_length _ _ _ Hargs), Nat.eqb_refl. simpl.
    by apply check_args_passes.
Qed.

(** X11: [check_types()] of a method call succeeds exactly when the
    receiver checks, its static type is an object type on which the method
    name resolves, and the arguments correspond one to one to the
    parameters, each argument checking with a static type that is a subtype
    of its parameter type; the call then has the return type of the
    resolved method as its static type. *)
Theorem method_call_checks_iff (receiver : JavaExpression) (m : string)
    (args : list JavaExpression) :
  check_types (JavaMethodCall receiver m args) = Ok tt ↔
  check_types receiver = Ok tt ∧
  ∃ t method,
    static_type receiver = Ok t ∧ is_object_type t = true ∧
    method_named t m = Ok method ∧
    Forall2 argument_passes args (parameter_types method) ∧
    static_type (JavaMethodCall receiver m args) = Ok (return_type method).
Proof. apply method_call_checks. Qed.

(** *** The type-mismatch report of a method call *)

Lemma check_args_mismatch mismatch pre arg post params p arg_type :
  Forall2 argument_passes pre (take (length pre) params) →
  check_types arg = Ok tt → static_type arg = Ok arg_type →
  params !! length pre = Some p → is_subtype_of arg_type p = false →
  check_args check_types mismatch (pre ++ arg :: post) params = mismatch.
Proof.
  intros Hpre Hc Hta Hp Hsub.
  rewrite <- (take_drop_middle params (length pre) p Hp).
  rewrite check_args_prefix by exact Hpre.
  simpl. rewrite Hc. simpl. rewrite Hta. simpl. by rewrite Hsub.
Qed.

Lemma comprehension_ok {A B} (f : A → res B) l ys :
  Forall2 (λ a y, f a = Ok y) l ys → comprehension f l = Ok ys.
Proof. induction 1 as [|a y l ys Ha _ IH]; simpl; [done|]. by rewrite Ha, IH. Qed.

Lemma comprehension_raise {A B} (f : A → res B) before bad after e :
  Forall (λ a, ∃ y, f a = Ok y) before → f bad = Raise e →
  comprehension f (before ++ bad :: after) = Raise e.
Proof.
  induction 1 as [|a before [y Ha] _ IH]; simpl; intros Hbad.
  - by rewrite Hbad.
  - rewrite Ha. simpl. by rewrite IH.
Qed.

Section Mismatch.
Variables (receiver : JavaExpression) (m : string) (t : JavaType)
  (method : JavaMethod JavaType).
Variables (pre : list JavaExpression) (arg : JavaExpression)
  (post : list JavaExpression) (p arg_type : JavaType).
Hypothesis receiver_checks : check_types receiver = Ok tt.
Hypothesis receiver_type : static_type receiver = Ok t.
Hypothesis receiver_object : is_object_type t = true.
Hypothesis method_resolves : method_named t m = Ok method.
Hypothesis count_matches :
  length (parameter_types method) = length (pre ++ arg :: post).
Hypothesis earlier_pass :
  Forall2 argument_passes pre (take (length pre) (parameter_types method)).
Hypothesis arg_checks : check_types arg = Ok tt.
Hypothesis arg_static_type : static_type arg = Ok arg_type.
Hypothesis arg_parameter : parameter_types method !! length pre = Some p.
Hypothesis arg_mismatch : is_subtype_of arg_type p = false.

Lemma method_call_mismatch :
  check_types (JavaMethodCall receiver m (pre ++ arg :: post)) =
  (actual_types ← comprehension (λ a, ty ← static_type a; Ok (name ty))
                    (pre ++ arg :: post);
   Raise (JavaTypeMismatchError
            (argument_type_message t m (name <$> parameter_types method) actual_types))).
Proof using All.
  simpl. rewrite receiver_checks. simpl. rewrite receiver_type. simpl.
  rewrite receiver_object, method_resolves. simpl.
  rewrite count_matches, Nat.eqb_refl. simpl.
  by eapply check_args_mismatch.
Qed.

(** X12: when the first argument that fails is one whose static type is
    not a subtype of its parameter type, and every argument of the call has
    a static type, the call raises a type-mismatch error whose message lists
    the names of all parameter types and of all argument types, not only
    the offending pair. *)
Theorem method_call_mismatch_lists_all_types (types : list JavaType) :
  Forall2 (λ a ty, static_type a = Ok ty) (pre ++ arg :: post) types →
  check_types (JavaMethodCall receiver m (pre ++ arg :: post)) =
  Raise (JavaTypeMismatchError
           (name t +:+ "." +:+ m +:+ "() expects arguments of type " +:+
            "(" +:+ String.concat ", " (name <$> parameter_types method) +:+
            "), but got " +:+ "(" +:+ String.concat ", " (name <$> types) +:+ ")")).
Proof using All.
  intros Htypes. rewrite method_call_mismatch.
  rewrite (comprehension_ok _ _ (name <$> types)); [done|].
  clear -Htypes. induction Htypes as [|a ty l tys Ha _ IH]; simpl; constructor; [|done].
  by rewrite Ha.
Qed.

(** X13: the mismatch report reads the static type of every argument,
    also of the arguments after the offending one, which the loop has not
    checked yet. If [static_type()] of one of them raises, that exception
    is what the call raises, in place of the type-mismatch error. *)
Theorem method_call_mismatch_masked (before : list JavaExpression) (bad : JavaExpression)
    (after : list JavaExpression) (e : exn) :
  pre ++ arg :: post = before ++ bad :: after →
  Forall (λ a, ∃ ty, static_type a = Ok ty) before →
  static_type bad = Raise e →
  check_types (JavaMethodCall receiver m (pre ++ arg :: post)) = Raise e.
Proof using All.
  intros Hsplit Hbefore Hbad. rewrite method_call_mismatch, Hsplit.
  rewrite (comprehension_raise _ before bad after e); [done| |by rewrite Hbad].
  eapply Forall_impl; [exact Hbefore|]. intros a [ty Ha]. exists (name ty). by rewrite Ha.
Qed.

End Mismatch.

(** *** What a successful check guarantees *)

Lemma assignment_checks (lhs rhs : JavaExpression) :
  check_types (JavaAssignment lhs rhs) = Ok tt ↔
  check_types lhs = Ok tt ∧ check_types rhs = Ok tt ∧
  ∃ lhs_type rhs_type,
    static_type (JavaAssignment lhs rhs) = Ok lhs_type ∧
    static_type rhs = Ok rhs_type ∧ is_subtype_of rhs_type lhs_type = true.
Proof.
  simpl. split.
  - destruct (check_types lhs) as [[]|]; simpl; [|done].
    destruct (check_types rhs) as [[]|]; simpl; [|done].
    destruct (static_type lhs) as [lt|]; simpl; [|done].
    destruct (static_type rhs) as [rt|]; simpl; [|done].
    destruct (is_subtype_of rt lt) eqn:Hsub; simpl; [|done].
    intros _. split; [done|]. split; [done|]. by exists lt, rt.
  - intros (-> & -> & lt & rt & -> & -> & Hsub). simpl. by rewrite Hsub.
Qed.

(** X14: [check_types()] of an assignment succeeds exactly when both
    sides check and the static type of the right side is a subtype of the
    static type of the left side, which is then the static type of the
    assignment. *)
Theorem assignment_checks_iff (lhs rhs : JavaExpression) :
  check_types (JavaAssignment lhs rhs) = Ok tt ↔
  check_types lhs = Ok tt ∧ check_types rhs = Ok tt ∧
  ∃ lhs_type rhs_type,
    static_type (JavaAssignment lhs rhs) = Ok lhs_type ∧
    static_type rhs = Ok rhs_type ∧ is_subtype_of rhs_type lhs_type = true.
Proof. apply assignment_checks. Qed.

Lemma elem_of_concat_map {A B} (f : A → list B) l y :
  y ∈ concat (map f l) → ∃ a, a ∈ l ∧ y ∈ f a.
Proof.
  induction l as [|a l IH]; simpl; [by intros ?%elem_of_nil|].
  intros [Hy|Hy]%elem_of_app.
  - exists a. split; [by left | done].
  - destruct (IH Hy) as (a' & Ha' & Hy'). exists a'. split; [by right | done].
Qed.

(** X15: a check that succeeds has looked at the whole tree: every
    subexpression of an expression that checks also checks and has a static
    type, and none of them is a constructor call. *)
Theorem checked_subexpressions (e : JavaExpression) :
  check_types e = Ok tt →
  ∀ s, s ∈ subexpressions e →
    check_types s = Ok tt ∧ (∃ t, static_type s = Ok t) ∧ is_constructor_call s = false.
Proof.
  induction e as [n t|v t| |lhs rhs IHl IHr|receiver m args IHr IHargs|T args _]
    using JavaExpression_nested_ind; intros He s Hs; simpl in Hs.
  - apply list_elem_of_singleton in Hs as ->. split; [done|]. split; [by eexists | done].
  - apply list_elem_of_singleton in Hs as ->. split; [done|]. split; [by eexists | done].
  - apply list_elem_of_singleton in Hs as ->. split; [done|]. split; [by eexists | done].
  - apply elem_of_cons in Hs as [->|Hs].
    { split; [done|]. split; [by apply check_types_static_type | done]. }
    apply assignment_checks in He as (Hl & Hr & _).
    apply elem_of_app in Hs as [Hs|Hs]; [by apply IHl | by apply IHr].
  - apply elem_of_cons in Hs as [->|Hs].
    { split; [done|]. split; [by apply check_types_static_type | done]. }
    apply method_call_checks in He as (Hr & t & method & _ & _ & _ & Hargs & _).
    apply elem_of_app in Hs as [Hs|Hs]; [by apply IHr|].
    apply elem_of_concat_map in Hs as (a & Ha & Hs).
    rewrite Forall_forall in IHargs. apply (IHargs a Ha); [|done].
    clear -Hargs Ha. induction Hargs as [|a' p' args params [Hc _] _ IH].
    + by apply elem_of_nil in Ha.
    + apply elem_of_cons in Ha as [->|Ha]; [done | by apply IH].
  - done.
Qed.

(** *** Exceptions that are never raised *)

(* Two results differ, possibly after an exception was passed on from a
   result of another type. *)
Ltac differs := first [done | congruence].

Section NeverRaised.
Hypothesis method_named_raises :
  ∀ t m msg, method_named t m ≠ Raise (JavaIllegalInstantiationError msg).

Lemma static_type_not_illegal_instantiation (e : JavaExpression) msg :
  static_type e ≠ Raise (JavaIllegalInstantiationError msg).
Proof using method_named_raises.
  induction e as [n t|v t| |lhs IHl rhs _|receiver IH m args|T args]; simpl; try done.
  destruct (static_type receiver) as [t|]; simpl; [|exact IH].
  destruct (is_object_type t); simpl; [|done].
  pose proof (method_named_raises t m msg) as Hm.
  destruct (method_named t m) as [method|[]]; simpl; first [done | congruence].
Qed.

Lemma comprehension_raise_inv {A B} (f : A → res B) l e :
  comprehension f l = Raise e → ∃ a, a ∈ l ∧ f a = Raise e.
Proof.
  induction l as [|a l IH]; simpl; [done|].
  destruct (f a) as [y|e'] eqn:Ha; simpl.
  - destruct (comprehension f l) as [ys|e'] eqn:Hl; simpl; [done|].
    intros [= ->]. destruct (IH eq_refl) as (a' & Ha' & Hr). exists a'. split; [by right | done].
  - intros [= ->]. exists a. split; [by left | done].
Qed.

(** X16: [JavaIllegalInstantiationError] is declared but no expression
    raises it: unless the types module's [method_named] raises it itself,
    neither [static_type()] nor [check_types()] of any expression ends in
    that exception. *)
Theorem illegal_instantiation_never_raised (e : JavaExpression) (msg : string) :
  static_type e ≠ Raise (JavaIllegalInstantiationError msg) ∧
  check_types e ≠ Raise (JavaIllegalInstantiationError msg).
Proof using method_named_raises.
  split; [apply static_type_not_illegal_instantiation|].
  induction e as [n t|v t| |lhs rhs IHl IHr|receiver m args IHr IHargs|T args _]
    using JavaExpression_nested_ind; simpl; try differs.
  - destruct (check_types lhs) as [[]|]; simpl; [|differs].
    destruct (check_types rhs) as [[]|]; simpl; [|differs].
    pose proof (static_type_not_illegal_instantiation lhs msg).
    destruct (static_type lhs) as [lt|]; simpl; [|differs].
    pose proof (static_type_not_illegal_instantiation rhs msg).
    destruct (static_type rhs) as [rt|]; simpl; [|differs].
    destruct (is_subtype_of rt lt); differs.
  - destruct (check_types receiver) as [[]|]; simpl; [|differs].
    pose proof (static_type_not_illegal_instantiation receiver msg).
    destruct (static_type receiver) as [t|]; simpl; [|differs].
    destruct (is_object_type t); simpl; [|differs].
    pose proof (method_named_raises t m msg) as Hm.
    destruct (method_named t m) as [method|[]]; simpl; try differs.
    destruct (length (parameter_types method) =? length args); simpl; [|differs].
    set (mismatch := _ ≫= _).
    assert (mismatch ≠ Raise (JavaIllegalInstantiationError msg)) as Hmm.
    { unfold mismatch.
      destruct (comprehension _ args) as [ys|e'] eqn:Hc; simpl; [differs|].
      apply comprehension_raise_inv in Hc as (a & _ & Ha).
      pose proof (static_type_not_illegal_instantiation a msg).
      destruct (static_type a); simpl in Ha; differs. }
    clearbody mismatch. generalize (parameter_types method). clear Hm.
    induction IHargs as [|a args Ha _ IH]; intros [|p params]; simpl; try differs.
    destruct (check_types a) as [[]|]; simpl; [|differs].
    pose proof (static_type_not_illegal_instantiation a msg).
    destruct (static_type a) as [ta|]; simpl; [|differs].
    destruct (is_subtype_of ta p); simpl; [apply IH | differs].
Qed.

End NeverRaised.

End Checker.

(** *** On the graphics types *)

Import Graphics.

Lemma method_call_mismatch_lists_all_types_witness :
  check_types (JavaMethodCall (JavaVariable "g" GRAPHICS) "move"
                 [JavaLiteral "1" INT; JavaLiteral "2" INT]) =
  Raise (JavaTypeMismatchError
           "Graphics.move() expects arguments of type (Graphics, int), but got (int, int)").
Proof.
  refine (method_call_mismatch_lists_all_types (JavaVariable "g" GRAPHICS) "move" GRAPHICS
            move [] (JavaLiteral "1" INT) [JavaLiteral "2" INT] GRAPHICS INT
            _ _ _ _ _ _ _ _ _ _ [INT; INT] _).
  - reflexivity.
  - reflexivity.
  - reflexivity.
  - reflexivity.
  - reflexivity.
  - constructor.
  - reflexivity.
  - reflexivity.
  - reflexivity.
  - reflexivity.
  - repeat constructor.
Defined.

Lemma method_call_mismatch_masked_witness :
  check_types (JavaMethodCall (JavaVariable "g" GRAPHICS) "move"
                 [JavaLiteral "1" INT; JavaMethodCall (JavaVariable "x" INT) "move" []]) =
  Raise (JavaTypeError "Cannot call method move on primitive type int").
Proof.
  refine (method_call_mismatch_masked (JavaVariable "g" GRAPHICS) "move" GRAPHICS
            move [] (JavaLiteral "1" INT) [JavaMethodCall (JavaVariable "x" INT) "move" []]
            GRAPHICS INT _ _ _ _ _ _ _ _ _ _
            [JavaLiteral "1" INT] (JavaMethodCall (JavaVariable "x" INT) "move" []) [] _ _ _ _).
  - reflexivity.
  - reflexivity.
  - reflexivity.
  - reflexivity.
  - reflexivity.
  - constructor.
  - reflexivity.
  - reflexivity.
  - reflexivity.
  - reflexivity.
  - reflexivity.
  - constructor; [by exists INT | constructor].
  - reflexivity.
Defined.

Lemma checked_subexpressions_witness :
  check_types (JavaLiteral "1" INT) = Ok tt ∧
  (∃ t, static_type (JavaLiteral "1" INT) = Ok t) ∧
  is_constructor_call (JavaLiteral "1" INT) = false.
Proof.
  apply (checked_subexpressions
           (JavaMethodCall (JavaVariable "g" GRAPHICS) "move"
              [JavaLiteral "r" RECTANGLE; JavaLiteral "1" INT])).
  - reflexivity.
  - simpl. do 3 right. left.
Defined.

Lemma lookup_method_raises t m msg :
  lookup_method t m ≠ Raise (JavaIllegalInstantiationError msg).
Proof. destruct t; simpl; try done; by destruct (String.eqb m "move"). Qed.

Lemma illegal_instantiation_never_raised_witness :
  static_type (JavaConstructorCall RECTANGLE []) ≠ Raise (JavaIllegalInstantiationError "") ∧
  check_types (JavaConstructorCall RECTANGLE []) ≠ Raise (JavaIllegalInstantiationError "").
Proof.
  apply illegal_instantiation_never_raised. exact lookup_method_raises.
Defined.

End ExpressionsMore.
